(** * tcp_proxy_simple: the connection-lifecycle engine of package [service]

    A shallow embedding of [service/conn.go], [service/backend.go] and
    [service/frontend.go].  Go objects that are shared through pointers
    ([*Conn], [*backend], [*frontend], [context.Context], [sync.Once]) live
    in one explicit store, the [world]; every method is a state transformer
    on it.  What the operating system and the scheduler decide (the result
    of a dial, of a bind, of an accept, the moment the context is
    cancelled) is an input of the function that asks for it, and every
    call that leaves the process is recorded in the [trace]. *)

From stdpp Require Import gmap strings list fin_maps sorting.
From Stdlib Require Import ZArith Lia.

Open Scope Z_scope.

(** ** Errors *)

(** A Go [error]: one made by package [net], or [errors.Wrap(cause, msg)]. *)
Inductive error :=
| NetError (msg : string)
| Wrap (cause : error) (msg : string).

(** [err.Error()]; [errors.Wrap] prefixes the message and a colon. *)
Fixpoint Error (e : error) : string :=
  match e with
  | NetError msg => msg
  | Wrap cause msg => msg +:+ ": " +:+ Error cause
  end.

(** [strings.Contains(s, sub)]. *)
Fixpoint Contains (s sub : string) : bool :=
  String.prefix sub s ||
  match s with
  | EmptyString => false
  | String _ rest => Contains rest sub
  end.

(** ** Data *)

(** A raw [net.Conn] as the kernel hands it out.  [sock] names the socket,
    [Sysfd] is the descriptor that [fdFromConn] digs out by reflection, and
    [closeErr] is what the socket's own [Close] reports. *)
Record NetConn := mkNetConn {
  sock : nat;
  Sysfd : Z;
  localAddr : string;
  remoteAddr : string;
  closeErr : option error;
}.

(** A value of interface [connManager]: a [*backend] or a [*frontend],
    each named by its position in the application. *)
Inductive connManager :=
| ManagerBackend (i : nat)
| ManagerFrontend (j : nat).

(** [type Conn struct]. *)
Record Conn := mkConn {
  netConn : NetConn;
  fd : Z;
  closed : bool;
  manager : connManager;
}.

(** [type backend struct]; [b_ctx] names its context, [dialler] keeps the
    dial timeout, [b_connections] maps a descriptor to the address of a
    [Conn] in the heap. *)
Record backend := mkBackend {
  b_ctx : nat;
  addr : string;
  dialler : Z;
  active : bool;
  b_connections : gmap Z nat;
  healthcheckInterval : Z;
}.

(** A bound [*net.TCPListener]. *)
Record TCPListener := mkListener { lsock : nat }.

(** [type frontend struct]; the owning application is the [world]. *)
Record frontend := mkFrontend {
  f_ctx : nat;
  laddr : string;
  tcpListener : option TCPListener;
  f_connections : gmap Z nat;
}.

(** zerolog levels used by the package. *)
Inductive level := Debug | Info | ErrorLevel.

(** The [go] statements of the package. *)
Inductive goroutine :=
| GoRunHealthcheck (i : nat)
| GoListenForNewConn (j : nat)
| GoHandleNewConnection (j : nat) (nc : NetConn)
| GoRelay (src dst : nat).

(** What the process does to the outside.  A log line keeps its level
    and its message, not its fields. *)
Inductive event :=
| EvNetClose (s : nat)
| EvListenerClose (l : nat)
| EvLog (lvl : level) (msg : string)
| EvSleep (d : Z)
| EvDial (a : string)
| EvListen (a : string)
| EvAccept (l : nat)
| EvGo (g : goroutine).

Global Instance error_eq_dec : EqDecision error.
Proof. solve_decision. Defined.
Global Instance NetConn_eq_dec : EqDecision NetConn.
Proof. solve_decision. Defined.
Global Instance level_eq_dec : EqDecision level.
Proof. solve_decision. Defined.
Global Instance goroutine_eq_dec : EqDecision goroutine.
Proof. solve_decision. Defined.
Global Instance event_eq_dec : EqDecision event.
Proof. solve_decision. Defined.

(** [time.Second], in nanoseconds. *)
Definition Second : Z := 1000000000.

(** One application together with what it shares: the cancelled contexts,
    the [Conn] objects, the [sync.Once] latches, and the trace. *)
Record world := mkWorld {
  done : gset nat;
  heap : list Conn;
  onces : list bool;
  backends : list backend;
  frontends : list frontend;
  trace : list event;
}.

Definition set_done (f : gset nat → gset nat) (w : world) : world :=
  mkWorld (f (done w)) (heap w) (onces w) (backends w) (frontends w) (trace w).
Definition set_heap (f : list Conn → list Conn) (w : world) : world :=
  mkWorld (done w) (f (heap w)) (onces w) (backends w) (frontends w) (trace w).
Definition set_onces (f : list bool → list bool) (w : world) : world :=
  mkWorld (done w) (heap w) (f (onces w)) (backends w) (frontends w) (trace w).
Definition set_backends (f : list backend → list backend) (w : world) : world :=
  mkWorld (done w) (heap w) (onces w) (f (backends w)) (frontends w) (trace w).
Definition set_frontends (f : list frontend → list frontend) (w : world) : world :=
  mkWorld (done w) (heap w) (onces w) (backends w) (f (frontends w)) (trace w).
Definition set_trace (f : list event → list event) (w : world) : world :=
  mkWorld (done w) (heap w) (onces w) (backends w) (frontends w) (f (trace w)).

Definition set_closed (v : bool) (c : Conn) : Conn :=
  mkConn (netConn c) (fd c) v (manager c).
Definition set_active (v : bool) (b : backend) : backend :=
  mkBackend (b_ctx b) (addr b) (dialler b) v (b_connections b) (healthcheckInterval b).
Definition set_b_connections (f : gmap Z nat → gmap Z nat) (b : backend) : backend :=
  mkBackend (b_ctx b) (addr b) (dialler b) (active b) (f (b_connections b))
            (healthcheckInterval b).
Definition set_f_connections (f : gmap Z nat → gmap Z nat) (fr : frontend) : frontend :=
  mkFrontend (f_ctx fr) (laddr fr) (tcpListener fr) (f (f_connections fr)).
Definition set_tcpListener (l : option TCPListener) (fr : frontend) : frontend :=
  mkFrontend (f_ctx fr) (laddr fr) l (f_connections fr).

(** ** The state monad of the package *)

Definition M (A : Type) : Type := world → A * world.

Definition ret {A} (a : A) : M A := λ w, (a, w).
Definition bind {A B} (m : M A) (k : A → M B) : M B :=
  λ w, let '(a, w') := m w in k a w'.

Notation "'do' x <- m ; k" := (bind m (λ x, k))
  (at level 10, x name, m at level 100, k at level 200).
Notation "m >> k" := (bind m (λ _, k))
  (at level 100, k at level 200, right associativity).

Definition exec {A} (m : M A) (w : world) : world := (m w).2.
Definition eval {A} (m : M A) (w : world) : A := (m w).1.

Definition emit (e : event) : M unit := λ w, (tt, set_trace (λ t, t ++ [e]) w).
Definition log (lvl : level) (msg : string) : M unit := emit (EvLog lvl msg).

(** [select { case <-ctx.Done(): ...; default: }]: whether the context is
    cancelled by now. *)
Definition isDone (c : nat) : M bool := λ w, (bool_decide (c ∈ done w), w).

(** The environment cancels a context. *)
Definition cancel (c : nat) : M unit := λ w, (tt, set_done (λ d, {[c]} ∪ d) w).

Definition load (p : nat) : M (option Conn) := λ w, (heap w !! p, w).
Definition getBackend (i : nat) : M (option backend) := λ w, (backends w !! i, w).
Definition getFrontend (j : nat) : M (option frontend) := λ w, (frontends w !! j, w).
Definition modifyBackend (i : nat) (f : backend → backend) : M unit :=
  λ w, (tt, set_backends (λ bs, match bs !! i with
                                | Some b => <[i := f b]> bs
                                | None => bs
                                end) w).
Definition modifyFrontend (j : nat) (f : frontend → frontend) : M unit :=
  λ w, (tt, set_frontends (λ fs, match fs !! j with
                                 | Some fr => <[j := f fr]> fs
                                 | None => fs
                                 end) w).

(** ** conn.go *)

(** [conn.Close()] on the raw socket: the kernel closes it and reports. *)
Definition net_Close (nc : NetConn) : M (option error) :=
  emit (EvNetClose (sock nc)) >> ret (closeErr nc).

(** [fdFromConn]. *)
Definition fdFromConn (nc : NetConn) : Z := Sysfd nc.

(** [newConn]: allocates the handle; [closed] starts at its zero value. *)
Definition newConn (nc : NetConn) (m : connManager) : M nat :=
  λ w, (length (heap w),
        set_heap (λ h, h ++ [mkConn nc (fdFromConn nc) false m]) w).

(** [Conn.Close]: the compare-and-swap lets one caller through to the
    socket and hands its result back; every other caller gets [nil].
    A pointer outside the heap does not occur in Go; it is given no
    effect here. *)
Definition Conn_Close (p : nat) : M (option error) :=
  do oc <- load p;
  match oc with
  | Some c =>
      if closed c then ret None
      else (λ w, (tt, set_heap (λ h, <[p := set_closed true c]> h) w)) >>
           net_Close (netConn c)
  | None => ret None
  end.

(** ** backend.go *)

(** What the environment answers to a dial. *)
Definition dial_result : Type := error + NetConn.

(** [newBackend]; [SplitHostPort] is [net.SplitHostPort] reduced to the
    error it returns.  [active] is not set: it keeps the zero value. *)
Definition newBackend (SplitHostPort : string → option error)
    (ctx : nat) (address : string) : error + backend :=
  match SplitHostPort address with
  | Some err => inl (Wrap err "SplitHostPort()")
  | None => inr (mkBackend ctx address (2 * Second) false ∅ (5 * Second))
  end.

(** [backend.addConn]: the [select] closes the handle when the context is
    done and falls out of the [select]; the map assignment follows in
    both cases. *)
Definition backend_addConn (i p : nat) : M unit :=
  do ob <- getBackend i;
  do oc <- load p;
  match ob, oc with
  | Some b, Some c =>
      do d <- isDone (b_ctx b);
      (if d then Conn_Close p >> ret tt else ret tt) >>
      modifyBackend i (set_b_connections (insert (fd c) p))
  | _, _ => ret tt
  end.

(** [backend.delConn]: returns at once when the context is done. *)
Definition backend_delConn (i p : nat) : M unit :=
  do ob <- getBackend i;
  do oc <- load p;
  match ob, oc with
  | Some b, Some c =>
      do d <- isDone (b_ctx b);
      if d then ret tt
      else modifyBackend i (set_b_connections (delete (fd c)))
  | _, _ => ret tt
  end.

(** [backend.getConnCount]: [len(b.connections)]. *)
Definition connCount (b : backend) : nat := size (b_connections b).

Definition backend_getConnCount (i : nat) : M nat :=
  do ob <- getBackend i;
  ret (from_option connCount 0%nat ob).

(** [backend.setActive]: [CompareAndSwap(!t, t)], logged when it swaps. *)
Definition backend_setActive (i : nat) (t : bool) : M unit :=
  do ob <- getBackend i;
  match ob with
  | Some b =>
      if bool_decide (active b = negb t)
      then modifyBackend i (set_active t) >> log Info "changed active status"
      else ret tt
  | None => ret tt
  end.

(** [b.dialler.DialContext(b.ctx, "tcp", b.addr)] answering [r]. *)
Definition DialContext (i : nat) (r : dial_result) : M dial_result :=
  do ob <- getBackend i;
  emit (EvDial (from_option addr "" ob)) >> ret r.

(** [backend.createConn]. *)
Definition backend_createConn (i : nat) (r : dial_result) : M dial_result :=
  do res <- DialContext i r;
  match res with
  | inl err => backend_setActive i false >> ret (inl (Wrap err "Dial()"))
  | inr conn => log Debug "new remote connection" >> ret (inr conn)
  end.

(** One dial of [runHealthcheck] with what follows it. *)
Definition probe (i : nat) (r : dial_result) : M unit :=
  do res <- DialContext i r;
  match res with
  | inl _ => backend_setActive i false
  | inr nc => net_Close nc >> backend_setActive i true
  end.

(** Which case of the [select] in [runHealthcheck] is taken: the context
    is done, or the ticker fires and the dial answers [r]. *)
Inductive tick := CtxDone | Tick (r : dial_result).

(** How far a blocking function got on the inputs it was given. *)
Inductive status := Returned | Running.

Fixpoint healthcheckLoop (i ctx : nat) (ticks : list tick) : M status :=
  match ticks with
  | [] => ret Running
  | CtxDone :: _ => cancel ctx >> ret Returned
  | Tick r :: rest => probe i r >> healthcheckLoop i ctx rest
  end.

(** [backend.runHealthcheck]: one dial at once, then one per tick. *)
Definition backend_runHealthcheck (i : nat) (first : dial_result)
    (ticks : list tick) : M status :=
  do ob <- getBackend i;
  match ob with
  | Some b => probe i first >> healthcheckLoop i (b_ctx b) ticks
  | None => ret Returned
  end.

(** [for _, conn := range connections { conn.Close() }]. *)
Fixpoint closeEach (ps : list nat) : M unit :=
  match ps with
  | [] => ret tt
  | p :: rest => Conn_Close p >> closeEach rest
  end.

(** The handles of a map, in the order of [map_to_list]; Go ranges over
    a map in no fixed order. *)
Definition tracked (m : gmap Z nat) : list nat := (map_to_list m).*2.

(** [backend.run]; [shutdown] says whether the context is cancelled while
    the function waits on [ctx.Done()]. *)
Definition backend_run (i : nat) (shutdown : bool) : M status :=
  do ob <- getBackend i;
  match ob with
  | Some b =>
      emit (EvGo (GoRunHealthcheck i)) >>
      if shutdown then
        cancel (b_ctx b) >>
        log Info "closing connections" >>
        do ob' <- getBackend i;
        closeEach (tracked (from_option b_connections ∅ ob')) >>
        ret Returned
      else ret Running
  | None => ret Returned
  end.

(** ** application.go *)

(** Modelled from the spec: the two ways [createRemoteConnection] fails,
    [NoBackend] and [DialError]; its file is not among the sources. *)
Inductive remote_error :=
| NoBackend
| DialError (e : error).

(** Modelled from the spec: the snapshot of [createRemoteConnection],
    whose file is not among the sources: the backends whose [is_active()]
    is true, each with its position in configuration order. *)
Definition activeBackends (bs : list backend) : list (nat * backend) :=
  filter (λ ib, active ib.2 = true) (imap pair bs).

(** Modelled from the spec: among the candidates the one with the least
    [connection_count()], the earlier one on a tie. *)
Fixpoint leastLoaded (best : nat * backend) (cands : list (nat * backend))
    : nat * backend :=
  match cands with
  | [] => best
  | c :: rest =>
      if (connCount c.2 <? connCount best.2)%nat
      then leastLoaded c rest else leastLoaded best rest
  end.

(** Modelled from the spec: the backend [createRemoteConnection] picks. *)
Definition selectBackend (bs : list backend) : option nat :=
  match activeBackends bs with
  | [] => None
  | c :: rest => Some (leastLoaded c rest).1
  end.

(** Modelled from the spec: [application.createRemoteConnection], whose
    file is not among the sources.  [NoBackend] without a dial when no
    backend is active; else one dial of the chosen backend, [DialError]
    when it fails and no second backend tried; else the socket wrapped as
    a handle that the chosen backend manages, which is what
    [handleNewConnection] receives. *)
Definition application_createRemoteConnection (r : dial_result)
    : M (remote_error + nat) :=
  λ w,
    match selectBackend (backends w) with
    | None => (inl NoBackend, w)
    | Some i =>
        (do res <- backend_createConn i r;
         match res with
         | inl e => ret (inl (DialError e))
         | inr nc => do p <- newConn nc (ManagerBackend i); ret (inr p)
         end) w
    end.

(** ** frontend.go *)

(** [frontend.addConn]: the same body as [backend.addConn]. *)
Definition frontend_addConn (j p : nat) : M unit :=
  do ofr <- getFrontend j;
  do oc <- load p;
  match ofr, oc with
  | Some fr, Some c =>
      do d <- isDone (f_ctx fr);
      (if d then Conn_Close p >> ret tt else ret tt) >>
      modifyFrontend j (set_f_connections (insert (fd c) p))
  | _, _ => ret tt
  end.

(** [frontend.delConn]. *)
Definition frontend_delConn (j p : nat) : M unit :=
  do ofr <- getFrontend j;
  do oc <- load p;
  match ofr, oc with
  | Some fr, Some c =>
      do d <- isDone (f_ctx fr);
      if d then ret tt
      else modifyFrontend j (set_f_connections (delete (fd c)))
  | _, _ => ret tt
  end.

(** [conn.manager.addConn(conn)] and [conn.manager.delConn(conn)]: the
    call goes to the manager the handle points to. *)
Definition manager_addConn (p : nat) : M unit :=
  do oc <- load p;
  match manager <$> oc with
  | Some (ManagerBackend i) => backend_addConn i p
  | Some (ManagerFrontend j) => frontend_addConn j p
  | None => ret tt
  end.

Definition manager_delConn (p : nat) : M unit :=
  do oc <- load p;
  match manager <$> oc with
  | Some (ManagerBackend i) => backend_delConn i p
  | Some (ManagerFrontend j) => frontend_delConn j p
  | None => ret tt
  end.

(** One turn of the bind loop as the environment shapes it: whether the
    context has been cancelled when the turn starts, and what
    [net.ListenTCP] answers if it is called. *)
Record bind_try := mkBindTry {
  bind_cancelled : bool;
  listen_result : error + TCPListener;
}.

(** How the bind loop ends on the turns it was given. *)
Inductive bind_outcome := Bound | Cancelled | Retrying.

(** The first [for] of [frontend.run]. *)
Fixpoint bindLoop (j ctx : nat) (a : string) (tries : list bind_try)
    : M bind_outcome :=
  match tries with
  | [] => ret Retrying
  | t :: rest =>
      (if bind_cancelled t then cancel ctx else ret tt) >>
      do d <- isDone ctx;
      if d then ret Cancelled
      else
        emit (EvListen a) >>
        match listen_result t with
        | inl err =>
            log ErrorLevel "ListenTCP()" >>
            emit (EvSleep (5 * Second)) >>
            bindLoop j ctx a rest
        | inr l => modifyFrontend j (set_tcpListener (Some l)) >> ret Bound
        end
  end.

(** [frontend.run]; [shutdown] says whether the context is cancelled while
    the function waits on [ctx.Done()] with its listener bound. *)
Definition frontend_run (j : nat) (tries : list bind_try) (shutdown : bool)
    : M status :=
  do ofr <- getFrontend j;
  match ofr with
  | Some fr =>
      do o <- bindLoop j (f_ctx fr) (laddr fr) tries;
      match o with
      | Cancelled => ret Returned
      | Retrying => ret Running
      | Bound =>
          emit (EvGo (GoListenForNewConn j)) >>
          if shutdown then
            cancel (f_ctx fr) >>
            log Info "closing listener and connections" >>
            do ofr' <- getFrontend j;
            match ofr' with
            | Some fr' =>
                emit (EvListenerClose
                        (from_option lsock 0%nat (tcpListener fr'))) >>
                closeEach (tracked (f_connections fr')) >>
                ret Returned
            | None => ret Returned
            end
          else ret Running
      end
  | None => ret Returned
  end.

(** One turn of the accept loop as the environment shapes it. *)
Record accept_try := mkAcceptTry {
  accept_cancelled : bool;
  accept_result : error + NetConn;
}.

Definition closedListener : string := "use of closed network connection".

Fixpoint acceptLoop (j ctx : nat) (accepts : list accept_try) : M status :=
  match accepts with
  | [] => ret Running
  | t :: rest =>
      (if accept_cancelled t then cancel ctx else ret tt) >>
      do d <- isDone ctx;
      if d then ret Returned
      else
        emit (EvAccept j) >>
        match accept_result t with
        | inl err =>
            if Contains (Error err) closedListener then ret Returned
            else log Info "AcceptTCP()" >> acceptLoop j ctx rest
        | inr nc =>
            log Debug "accepted new connection" >>
            emit (EvGo (GoHandleNewConnection j nc)) >>
            acceptLoop j ctx rest
        end
  end.

(** [frontend.listenForNewConn]. *)
Definition frontend_listenForNewConn (j : nat) (accepts : list accept_try)
    : M status :=
  do ofr <- getFrontend j;
  match ofr with
  | Some fr => acceptLoop j (f_ctx fr) accepts
  | None => ret Returned
  end.

(** [sync.Once]: a fresh latch, and [Do]. *)
Definition newOnce : M nat :=
  λ w, (length (onces w), set_onces (λ os, os ++ [false]) w).

Definition Once_Do (o : nat) (f : M unit) : M unit :=
  λ w,
    match onces w !! o with
    | Some false => (f >> λ w', (tt, set_onces (λ os, <[o := true]> os) w')) w
    | _ => (tt, w)
    end.

(** What the two relay goroutines of one accepted connection share. *)
Record session := mkSession {
  s_conn : nat;
  s_rConn : nat;
  s_closeOnce : nat;
}.

Definition closingMsg (a b : string) : string :=
  "closing connection " +:+ a +:+ " -> " +:+ b.

Definition addrs (p : nat) : M (string * string) :=
  do oc <- load p;
  ret (from_option (λ c, (localAddr (netConn c), remoteAddr (netConn c)))
                   ("", "") oc).

(** The closure [closeAll] of [handleNewConnection]. *)
Definition closeAll (s : session) : M unit :=
  do ac <- addrs (s_conn s);
  log Debug (closingMsg ac.2 ac.1) >>
  Conn_Close (s_conn s) >>
  do ar <- addrs (s_rConn s);
  log Debug (closingMsg ar.1 ar.2) >>
  Conn_Close (s_rConn s) >>
  manager_delConn (s_conn s) >>
  manager_delConn (s_rConn s).

(** [frontend.handleNewConnection] up to and including its two [go]
    statements; [r] is what the dial answers if one is made.  [None] is
    the early [return]. *)
Definition frontend_handleNewConnection (j : nat) (nc : NetConn)
    (r : dial_result) : M (option session) :=
  do res <- application_createRemoteConnection r;
  match res with
  | inl _ =>
      log ErrorLevel "can't find next backend" >>
      log Debug (closingMsg (remoteAddr nc) (localAddr nc)) >>
      net_Close nc >>
      ret None
  | inr rConn =>
      manager_addConn rConn >>
      do conn <- newConn nc (ManagerFrontend j);
      manager_addConn conn >>
      do o <- newOnce;
      emit (EvGo (GoRelay rConn conn)) >>
      emit (EvGo (GoRelay conn rConn)) >>
      ret (Some (mkSession conn rConn o))
  end.

(** The [for] of a relay goroutine over the answers of [io.CopyBuffer]:
    it leaves on an error, which it logs (the two addresses of the
    message are left out), or on a copy of zero bytes. *)
Fixpoint copyLoop (copies : list (Z * option error)) : M status :=
  match copies with
  | [] => ret Running
  | (_, Some _) :: _ => log Info "can't copy data" >> ret Returned
  | (n, None) :: rest => if n =? 0 then ret Returned else copyLoop rest
  end.

(** One relay goroutine of [handleNewConnection]: the copy loop, then
    [closeOnce.Do(closeAll)].  The pooled buffer does not show. *)
Definition relay (s : session) (copies : list (Z * option error)) : M status :=
  do st <- copyLoop copies;
  match st with
  | Returned => Once_Do (s_closeOnce s) (closeAll s) >> ret Returned
  | Running => ret Running
  end.

(** The number of times the socket [s] was closed. *)
Definition netCloses (s : nat) (t : list event) : nat :=
  length (filter (λ e, e = EvNetClose s) t).

(** ** Scenarios *)

(** [c.Close()] called [n] times in a row, with what each call returns. *)
Fixpoint closeTimes (p : nat) (n : nat) : M (list (option error)) :=
  match n with
  | O => ret []
  | S k => do r <- Conn_Close p; do rs <- closeTimes p k; ret (r :: rs)
  end.

(** Whether a dial succeeded, and whether one of the dials that
    [runHealthcheck] makes on its ticks does. *)
Definition dialOk (r : dial_result) : bool :=
  match r with inr _ => true | inl _ => false end.

Fixpoint dialsOk (ticks : list tick) : bool :=
  match ticks with
  | [] => false
  | CtxDone :: _ => false
  | Tick r :: rest => dialOk r || dialsOk rest
  end.

(** Every operation of the package, with the inputs the environment
    gives it. *)
Inductive action :=
| ACancel (c : nat)
| AConnClose (p : nat)
| ANewConn (nc : NetConn) (m : connManager)
| ABackendAddConn (i p : nat)
| ABackendDelConn (i p : nat)
| AFrontendAddConn (j p : nat)
| AFrontendDelConn (j p : nat)
| AGetConnCount (i : nat)
| ACreateConn (i : nat) (r : dial_result)
| AProbe (i : nat) (r : dial_result)
| ARunHealthcheck (i : nat) (first : dial_result) (ticks : list tick)
| ABackendRun (i : nat) (shutdown : bool)
| ACreateRemoteConnection (r : dial_result)
| AFrontendRun (j : nat) (tries : list bind_try) (shutdown : bool)
| AListenForNewConn (j : nat) (accepts : list accept_try)
| AHandleNewConnection (j : nat) (nc : NetConn) (r : dial_result)
| ARelay (s : session) (copies : list (Z * option error)).

Definition step (a : action) : world → world :=
  match a with
  | ACancel c => exec (cancel c)
  | AConnClose p => exec (Conn_Close p)
  | ANewConn nc m => exec (newConn nc m)
  | ABackendAddConn i p => exec (backend_addConn i p)
  | ABackendDelConn i p => exec (backend_delConn i p)
  | AFrontendAddConn j p => exec (frontend_addConn j p)
  | AFrontendDelConn j p => exec (frontend_delConn j p)
  | AGetConnCount i => exec (backend_getConnCount i)
  | ACreateConn i r => exec (backend_createConn i r)
  | AProbe i r => exec (probe i r)
  | ARunHealthcheck i first ticks => exec (backend_runHealthcheck i first ticks)
  | ABackendRun i shutdown => exec (backend_run i shutdown)
  | ACreateRemoteConnection r => exec (application_createRemoteConnection r)
  | AFrontendRun j tries shutdown => exec (frontend_run j tries shutdown)
  | AListenForNewConn j accepts => exec (frontend_listenForNewConn j accepts)
  | AHandleNewConnection j nc r => exec (frontend_handleNewConnection j nc r)
  | ARelay s copies => exec (relay s copies)
  end.

Definition run (acts : list action) (w : world) : world :=
  foldl (λ w a, step a w) w acts.

(** The actions in which the health probe of backend [i] dials with
    success. *)
Definition healthyProbe (i : nat) (a : action) : bool :=
  match a with
  | AProbe i' r => bool_decide (i' = i) && dialOk r
  | ARunHealthcheck i' first ticks =>
      bool_decide (i' = i) && (dialOk first || dialsOk ticks)
  | _ => false
  end.

(** Binds that fail with the context live, and what the loop shows for
    them. *)
Definition failedBinds (errs : list error) : list bind_try :=
  (λ e, mkBindTry false (inl e)) <$> errs.

Definition retryTrace (a : string) (errs : list error) : list event :=
  errs ≫= λ _, [EvListen a; EvLog ErrorLevel "ListenTCP()"; EvSleep (5 * Second)].

(** The environment cancels the contexts in [cs] at once. *)
Definition cancelAll (cs : gset nat) : M unit :=
  λ w, (tt, set_done (λ d, cs ∪ d) w).

(** Whether the answers of [io.CopyBuffer] make the copy loop leave, and
    what the loop logs when it does. *)
Fixpoint copyEnds (copies : list (Z * option error)) : bool :=
  match copies with
  | [] => false
  | (_, Some _) :: _ => true
  | (n, None) :: rest => (n =? 0) || copyEnds rest
  end.

Fixpoint copyLog (copies : list (Z * option error)) : list event :=
  match copies with
  | [] => []
  | (_, Some _) :: _ => [EvLog Info "can't copy data"]
  | (n, None) :: rest => if n =? 0 then [] else copyLog rest
  end.

Fixpoint relays (s : session) (cs : list (list (Z * option error))) : M unit :=
  match cs with
  | [] => ret tt
  | copies :: rest => relay s copies >> relays s rest
  end.

(** The life of one accepted connection: the handler; the contexts in
    [mid] are cancelled while the relay goroutines copy; then the relay
    goroutines, one list of [io.CopyBuffer] answers each, in the order in
    which they leave their loops.  [handleNewConnection] starts two. *)
Definition pairLife (j : nat) (nc : NetConn) (r : dial_result)
    (mid : gset nat) (cs : list (list (Z * option error)))
    : M (option session) :=
  do os <- frontend_handleNewConnection j nc r;
  match os with
  | None => ret None
  | Some s => cancelAll mid >> relays s cs >> ret (Some s)
  end.

(** ** Predicates *)

(** [keeps R m]: running [m] relates every world to the one it leaves. *)
Definition keeps {A} (R : relation world) (m : M A) : Prop :=
  ∀ w, R w (m w).2.

(** Backend [i] is not promoted: the list of backends keeps its length
    and, if backend [i] is active afterwards, it was active before. *)
Definition quietAt (i : nat) (w w' : world) : Prop :=
  length (backends w') = length (backends w)
  ∧ ∀ b b', backends w !! i = Some b → backends w' !! i = Some b' →
            active b' = true → active b = true.

(** Configuration order on the candidates of the selection. *)
Definition byIndex (x y : nat * backend) : Prop := (x.1 < y.1)%nat.

(** [is_active()] of backend [i]. *)
Definition isActive (w : world) (i : nat) : Prop :=
  active <$> backends w !! i = Some true.

(** The handle at [p] sits in the map of backend [i], of frontend [j],
    under the key [k]. *)
Definition inBackendMap (w : world) (i : nat) (k : Z) (p : nat) : Prop :=
  ∃ b, backends w !! i = Some b ∧ b_connections b !! k = Some p.
Definition inFrontendMap (w : world) (j : nat) (k : Z) (p : nat) : Prop :=
  ∃ fr, frontends w !! j = Some fr ∧ f_connections fr !! k = Some p.

(** Every handle that a map holds is in the heap. *)
Definition tracksHeap (w : world) : Prop :=
  ∀ m k p, inBackendMap w m k p ∨ inFrontendMap w m k p →
           (p < length (heap w))%nat.

(** The handle at [p] is in no map. *)
Definition untracked (w : world) (p : nat) : Prop :=
  ∀ m k, ¬ inBackendMap w m k p ∧ ¬ inFrontendMap w m k p.

(** ** Sample inputs *)

Definition upstreamConn : NetConn :=
  mkNetConn 21 22 "10.0.0.1:40000" "10.0.0.2:9000" None.
Definition clientConn : NetConn :=
  mkNetConn 31 23 "10.0.0.1:7000" "10.0.0.9:5555" None.
Definition sampleBackend (a : bool) (conns : gmap Z nat) : backend :=
  mkBackend 0 "10.0.0.2:9000" (2 * Second) a conns (5 * Second).

Definition C4_conn : NetConn :=
  mkNetConn 4 9 "10.0.0.1:7000" "10.0.0.9:5555" None.
Definition C4_world : world :=
  mkWorld ∅ [mkConn C4_conn 9 false (ManagerFrontend 0)] [] [] [] [].
Definition C4_failing_conn : NetConn :=
  mkNetConn 4 9 "10.0.0.1:7000" "10.0.0.9:5555"
            (Some (NetError "close tcp 10.0.0.1:7000: input/output error")).
Definition C4_failing_world : world :=
  mkWorld ∅ [mkConn C4_failing_conn 9 false (ManagerFrontend 0)] [] [] [] [].

Definition C3_world : world :=
  mkWorld ∅ [] []
    [sampleBackend false ∅;
     sampleBackend true {[5 := 0%nat]};
     sampleBackend true {[6 := 1%nat; 7 := 2%nat]};
     sampleBackend true {[8 := 3%nat]}]
    [] [].

Definition C6_client : NetConn :=
  mkNetConn 11 12 "10.0.0.1:7000" "10.0.0.9:5555" None.
Definition C6_upstream : NetConn :=
  mkNetConn 12 13 "10.0.0.1:40000" "10.0.0.2:9000" None.
Definition C6_world : world :=
  mkWorld ∅ [] [] [sampleBackend false ∅; sampleBackend false {[5 := 0%nat]}]
    [mkFrontend 0 ":7000" (Some (mkListener 1)) ∅] [].

Definition C1_conn : NetConn :=
  mkNetConn 21 22 "10.0.0.1:7000" "10.0.0.9:5555" None.
Definition C1_world : world :=
  mkWorld {[0%nat]} [mkConn C1_conn 22 false (ManagerBackend 0)] []
    [mkBackend 0 "10.0.0.2:9000" (2 * Second) true ∅ (5 * Second)]
    [mkFrontend 0 ":7000" (Some (mkListener 1)) ∅] [].

Definition C10_world : world :=
  mkWorld {[0%nat]}
    [mkConn upstreamConn 22 true (ManagerBackend 0);
     mkConn clientConn 23 true (ManagerFrontend 0)] []
    [mkBackend 0 "10.0.0.2:9000" (2 * Second) true {[22 := 0%nat]} (5 * Second)]
    [mkFrontend 0 ":7000" (Some (mkListener 1)) {[23 := 1%nat]}] [].

Definition C5_world : world :=
  mkWorld ∅ [] []
    [mkBackend 0 "10.0.0.2:9000" (2 * Second) true ∅ (5 * Second)]
    [mkFrontend 0 ":7000" (Some (mkListener 1)) ∅] [].

Definition C9_backend : backend :=
  mkBackend 0 "10.0.0.2:9000" (2 * Second) false ∅ (5 * Second).
Definition C9_world : world :=
  mkWorld ∅ [] []
    [mkBackend 0 "10.0.0.3:9000" (2 * Second) true ∅ (5 * Second); C9_backend]
    [mkFrontend 0 ":7000" (Some (mkListener 1)) ∅] [].
Definition C9_actions : list action :=
  [AProbe 1 (inl (NetError "connection refused"));
   ACreateConn 1 (inr upstreamConn);
   AProbe 0 (inr upstreamConn);
   AHandleNewConnection 0 clientConn (inr upstreamConn);
   AGetConnCount 1].

Definition C8_world : world :=
  mkWorld ∅ [] []
    [mkBackend 0 "10.0.0.2:9000" (2 * Second) true ∅ (5 * Second)]
    [mkFrontend 0 ":7000" None ∅] [].
Definition C8_errs : list error :=
  [NetError "listen tcp :7000: bind: address already in use";
   NetError "listen tcp :7000: bind: address already in use"].

Definition C7_world : world :=
  mkWorld ∅ [] []
    [mkBackend 0 "10.0.0.2:9000" (2 * Second) true ∅ (5 * Second)]
    [mkFrontend 0 ":7000" (Some (mkListener 1)) ∅] [].
Definition C7_err : error :=
  NetError "accept tcp [::]:7000: accept4: too many open files".
Definition C7_closed : error :=
  NetError "accept tcp [::]:7000: use of closed network connection".
Definition C7_accepts : list accept_try :=
  [mkAcceptTry false (inl C7_err); mkAcceptTry true (inr clientConn)].

Definition C2_client : NetConn :=
  mkNetConn 41 8 "10.0.0.1:7000" "10.0.0.9:5555" None.
Definition C2_upstream : NetConn :=
  mkNetConn 42 9 "10.0.0.1:40000" "10.0.0.2:9000" None.
Definition C2_world : world :=
  mkWorld ∅ [] []
    [mkBackend 0 "10.0.0.2:9000" (2 * Second) true ∅ (5 * Second)]
    [mkFrontend 0 ":7000" (Some (mkListener 1)) ∅] [].
Definition C2_eof : list (Z * option error) := [(4, None); (0, None)].
Definition C2_reset : list (Z * option error) :=
  [(0, Some (NetError "read: connection reset by peer"))].
Definition C2_shutdown : M (option session) :=
  pairLife 0 C2_client (inr C2_upstream) {[0%nat]} [C2_eof; C2_reset].

(** ** Further scenarios and predicates *)

(** The handle, if any, that backend [i], frontend [j], keeps under the
    descriptor [k]. *)
Definition backendEntry (w : world) (i : nat) (k : Z) : option nat :=
  backends w !! i ≫= λ b, b_connections b !! k.
Definition frontendEntry (w : world) (j : nat) (k : Z) : option nat :=
  frontends w !! j ≫= λ fr, f_connections fr !! k.

(** A handle closes, a new handle comes in under a descriptor, and the
    first handle is deregistered: the order in which [closeAll] of one
    connection and [handleNewConnection] of the next may reach the map of
    backend [i]. *)
Definition closeThenReuse (i p q : nat) : M unit :=
  Conn_Close p >> backend_addConn i q >> backend_delConn i p.

Definition X_world : world :=
  mkWorld ∅
    [mkConn upstreamConn 22 false (ManagerBackend 0);
     mkConn (mkNetConn 51 22 "10.0.0.1:40001" "10.0.0.2:9000" None) 22 false
            (ManagerBackend 0)] []
    [mkBackend 0 "10.0.0.2:9000" (2 * Second) false {[22 := 0%nat]} (5 * Second)]
    [mkFrontend 0 ":7000" (Some (mkListener 1)) ∅] [].

Definition X_unregistered : world :=
  mkWorld ∅ [mkConn upstreamConn 22 false (ManagerBackend 0)] []
    [sampleBackend true ∅]
    [mkFrontend 0 ":7000" (Some (mkListener 1)) ∅] [].

(** Two handles of backend 0: the one at 0 is registered under the
    descriptor 22, the one at 1 has the same descriptor and is not. *)
Definition X_shared_fd : world :=
  mkWorld ∅
    [mkConn upstreamConn 22 false (ManagerBackend 0);
     mkConn (mkNetConn 51 22 "10.0.0.1:40001" "10.0.0.2:9000" None) 22 false
            (ManagerBackend 0)] []
    [sampleBackend true {[22 := 0%nat]}]
    [mkFrontend 0 ":7000" None {[23 := 1%nat]}] [].

(** The last dial that [runHealthcheck] makes on its ticks, the sockets
    its dials open, and whether the context ends the loop. *)
Fixpoint lastDial (first : dial_result) (ticks : list tick) : dial_result :=
  match ticks with
  | [] => first
  | CtxDone :: _ => first
  | Tick r :: rest => lastDial r rest
  end.

Definition dialSocket (r : dial_result) : list nat :=
  match r with inr nc => [sock nc] | inl _ => [] end.

Fixpoint tickSockets (ticks : list tick) : list nat :=
  match ticks with
  | [] => []
  | CtxDone :: _ => []
  | Tick r :: rest => dialSocket r ++ tickSockets rest
  end.

Fixpoint ctxDoneIn (ticks : list tick) : bool :=
  match ticks with
  | [] => false
  | CtxDone :: _ => true
  | Tick _ :: rest => ctxDoneIn rest
  end.

(** Accepts that succeed with the context live, and what the loop shows
    for them. *)
Definition accepted (ncs : list NetConn) : list accept_try :=
  (λ nc, mkAcceptTry false (inr nc)) <$> ncs.

Definition acceptedTrace (j : nat) (ncs : list NetConn) : list event :=
  ncs ≫= λ nc, [EvAccept j; EvLog Debug "accepted new connection";
                EvGo (GoHandleNewConnection j nc)].

(** A copy that moved bytes and met no error. *)
Definition copied (c : Z * option error) : Prop := c.2 = None ∧ c.1 ≠ 0.

Definition X_copies : list (Z * option error) :=
  [(512, None); (7, Some (NetError "write: broken pipe")); (0, None)].

(** [c'] is the handle [c] at a later time: the same socket, descriptor
    and manager, and closed if [c] was. *)
Definition sameHandle (c c' : Conn) : Prop :=
  netConn c' = netConn c ∧ fd c' = fd c ∧ manager c' = manager c
  ∧ (closed c = true → closed c' = true).

(** [w'] may follow [w]: cancelled contexts stay cancelled, handles stay
    where they are and stay the same handle, latches that are set stay
    set, the trace is extended, and the backends and frontends stay in
    place with their context and address. *)
Definition later (w w' : world) : Prop :=
  done w ⊆ done w'
  ∧ (∀ p c, heap w !! p = Some c →
            ∃ c', heap w' !! p = Some c' ∧ sameHandle c c')
  ∧ (∀ o, onces w !! o = Some true → onces w' !! o = Some true)
  ∧ (∃ t, trace w' = trace w ++ t)
  ∧ (∀ i b, backends w !! i = Some b →
            ∃ b', backends w' !! i = Some b'
                  ∧ b_ctx b' = b_ctx b ∧ addr b' = addr b)
  ∧ (∀ j fr, frontends w !! j = Some fr →
             ∃ fr', frontends w' !! j = Some fr'
                    ∧ f_ctx fr' = f_ctx fr ∧ laddr fr' = laddr fr).

(** * Properties *)

(** Unfolds the plumbing of the monad and of the record updates. *)
Ltac wsimpl :=
  cbv beta iota zeta delta [bind ret emit log load isDone cancel getBackend getFrontend
                  modifyBackend modifyFrontend net_Close newConn newOnce
                  exec eval
                  set_trace set_heap set_done set_onces set_backends
                  set_frontends];
  cbn [done heap onces backends frontends trace fst snd].


(** ** The handle: [Conn.Close] *)

Section conn_close.
Variables (w : world) (p : nat) (c : Conn).
Hypothesis Hp : heap w !! p = Some c.

Lemma Conn_Close_closed :
  closed c = true → Conn_Close p w = (None, w).
Proof.
  intros Hc. unfold Conn_Close, bind, load. by rewrite Hp, Hc.
Qed.

Lemma Conn_Close_open :
  closed c = false →
  Conn_Close p w =
    (closeErr (netConn c),
     mkWorld (done w) (<[p := set_closed true c]> (heap w)) (onces w)
             (backends w) (frontends w)
             (trace w ++ [EvNetClose (sock (netConn c))])).
Proof.
  intros Hc. unfold Conn_Close, bind, load. by rewrite Hp, Hc.
Qed.
End conn_close.

Lemma closeTimes_closed w p c n :
  heap w !! p = Some c → closed c = true →
  closeTimes p n w = (replicate n None, w).
Proof.
  intros Hp Hc. induction n as [|n IH]; [done|].
  cbn [closeTimes]. unfold bind at 1.
  rewrite (Conn_Close_closed w p c Hp Hc).
  unfold bind at 1. by rewrite IH.
Qed.

Lemma closeTimes_open w p c n :
  heap w !! p = Some c → closed c = false →
  closeTimes p (S n) w =
    (closeErr (netConn c) :: replicate n None,
     mkWorld (done w) (<[p := set_closed true c]> (heap w)) (onces w)
             (backends w) (frontends w)
             (trace w ++ [EvNetClose (sock (netConn c))])).
Proof.
  intros Hp Hc. cbn [closeTimes]. unfold bind at 1.
  rewrite (Conn_Close_open w p c Hp Hc). unfold bind at 1.
  rewrite (closeTimes_closed _ p (set_closed true c) n); [done| |done].
  cbn. apply list_lookup_insert_eq. by eapply lookup_lt_Some.
Qed.

Lemma netCloses_app s t1 t2 :
  netCloses s (t1 ++ t2) = (netCloses s t1 + netCloses s t2)%nat.
Proof. unfold netCloses. by rewrite filter_app, length_app. Qed.

Lemma netCloses_one s : netCloses s [EvNetClose s] = 1%nat.
Proof.
  unfold netCloses. cbn. rewrite decide_True by done. done.
Qed.

(** C4, as amended: on a handle that is still open, [n + 1] calls of
    [Close] reach the socket once, in the first call, which returns what
    the socket's own [Close] returns; the [n] later calls return [nil] and
    leave the world as the first call left it. *)
Theorem C4_close_idempotent w p c n :
  heap w !! p = Some c → closed c = false →
  let w1 := exec (Conn_Close p) w in
  eval (closeTimes p (S n)) w = closeErr (netConn c) :: replicate n None
  ∧ exec (closeTimes p (S n)) w = w1
  ∧ trace w1 = trace w ++ [EvNetClose (sock (netConn c))]
  ∧ netCloses (sock (netConn c)) (trace w1)
    = S (netCloses (sock (netConn c)) (trace w)).
Proof.
  intros Hp Hc w1. subst w1. unfold eval, exec.
  rewrite (closeTimes_open w p c n Hp Hc), (Conn_Close_open w p c Hp Hc).
  cbn [fst snd trace]. do 3 (split; [reflexivity|]).
  rewrite netCloses_app, netCloses_one. lia.
Qed.


Lemma C4_close_idempotent_witness :
  eval (closeTimes 0 3) C4_world = [None; None; None]
  ∧ netCloses 4 (trace (exec (closeTimes 0 3) C4_world)) = 1%nat.
Proof.
  destruct (C4_close_idempotent C4_world 0 (mkConn C4_conn 9 false (ManagerFrontend 0)) 2
              eq_refl eq_refl) as (Hr & Hw & _ & Hn).
  split; [exact Hr|]. rewrite Hw. exact Hn.
Defined.


(** C4, as stated, fails: the first of two calls on an open handle hands
    back the error of the socket's [Close]. *)
Lemma C4_first_close_returns_error :
  heap C4_failing_world !! 0%nat
    = Some (mkConn C4_failing_conn 9 false (ManagerFrontend 0))
  ∧ ¬ Forall (λ r, r = None) (eval (closeTimes 0 2) C4_failing_world).
Proof.
  split; [reflexivity|]. intros H. vm_compute in H.
  apply Forall_cons_1 in H as [H _]. discriminate H.
Qed.

(** ** What a computation keeps *)

Section keeps.
Context (R : relation world) `{!PreOrder R}.

Lemma keeps_ret {A} (a : A) : keeps R (ret a).
Proof. intros w. reflexivity. Qed.

Lemma keeps_bind {A B} (m : M A) (k : A → M B) :
  keeps R m → (∀ a, keeps R (k a)) → keeps R (bind m k).
Proof.
  intros Hm Hk w. unfold bind. specialize (Hm w).
  destruct (m w) as [a w1]. cbn in *. etrans; [exact Hm|apply Hk].
Qed.

Lemma keeps_closeEach ps :
  (∀ p, keeps R (Conn_Close p)) → keeps R (closeEach ps).
Proof.
  intros H. induction ps as [|p ps IH]; cbn [closeEach].
  - apply keeps_ret.
  - apply keeps_bind; [apply H|intros _; apply IH].
Qed.
End keeps.

Ltac keeps_go :=
  repeat first
    [ solve [apply keeps_ret; apply _]
    | solve [eauto with keeps]
    | apply keeps_bind; [apply _| |intros ?]
    | match goal with
      | |- keeps _ (match ?x with _ => _ end) => destruct x
      end ].

Create HintDb keeps.

(** ** No promotion outside the health probe *)

Section quiet.
Variable i : nat.

Local Abbreviation quiet := (quietAt i).

Global Instance quiet_preorder : PreOrder quiet.
Proof.
  split.
  - intros w. split; [done|]. intros b b' H1 H2. congruence.
  - intros w1 w2 w3 [L12 H12] [L23 H23]. split; [congruence|].
    intros b1 b3 H1 H3 Ha.
    destruct (lookup_lt_is_Some_2 (backends w2) i) as [b2 H2].
    { rewrite L12. by eapply lookup_lt_Some. }
    eauto.
Qed.

Lemma quiet_same w w' : backends w' = backends w → quiet w w'.
Proof. intros H. unfold quietAt. rewrite H. split; [done|]. congruence. Qed.

Lemma quiet_lookup w w' b :
  quiet w w' → backends w !! i = Some b → active b = false →
  ∃ b', backends w' !! i = Some b' ∧ active b' = false.
Proof.
  intros [L H] Hi Hb.
  destruct (lookup_lt_is_Some_2 (backends w') i) as [b' Hi'].
  { rewrite L. by eapply lookup_lt_Some. }
  exists b'. split; [done|]. destruct (active b') eqn:Ha; [|done].
  rewrite (H _ _ Hi Hi' Ha) in Hb. done.
Qed.

Lemma keeps_same {A} (m : M A) :
  (∀ w, backends (m w).2 = backends w) → keeps quiet m.
Proof. intros H w. apply quiet_same, H. Qed.

Lemma keeps_modifyBackend k f :
  (k = i → ∀ b, active (f b) = true → active b = true) →
  keeps quiet (modifyBackend k f).
Proof.
  intros Hf w. unfold quietAt, modifyBackend. cbn.
  destruct (backends w !! k) as [b|] eqn:Hk.
  - split; [by rewrite length_insert|]. intros b1 b2 H1 H2.
    destruct (decide (k = i)) as [->|Hne].
    + rewrite list_lookup_insert_eq in H2 by (by eapply lookup_lt_Some).
      simplify_eq. by apply Hf.
    + rewrite list_lookup_insert_ne in H2 by done. congruence.
  - split; [done|]. congruence.
Qed.

Ltac keeps_prim := apply keeps_same; intros ?; reflexivity.

Lemma keeps_emit e : keeps quiet (emit e).
Proof. keeps_prim. Qed.
Lemma keeps_log l s : keeps quiet (log l s).
Proof. keeps_prim. Qed.
Lemma keeps_cancel c : keeps quiet (cancel c).
Proof. keeps_prim. Qed.
Lemma keeps_isDone c : keeps quiet (isDone c).
Proof. keeps_prim. Qed.
Lemma keeps_load p : keeps quiet (load p).
Proof. keeps_prim. Qed.
Lemma keeps_newConn nc m : keeps quiet (newConn nc m).
Proof. keeps_prim. Qed.
Lemma keeps_newOnce : keeps quiet newOnce.
Proof. keeps_prim. Qed.
Lemma keeps_getBackend k : keeps quiet (getBackend k).
Proof. keeps_prim. Qed.
Lemma keeps_getFrontend j : keeps quiet (getFrontend j).
Proof. keeps_prim. Qed.
Lemma keeps_modifyFrontend j f : keeps quiet (modifyFrontend j f).
Proof. keeps_prim. Qed.
Lemma keeps_set_heap f : keeps quiet (λ w, (tt, set_heap f w)).
Proof. keeps_prim. Qed.
Lemma keeps_set_onces f : keeps quiet (λ w, (tt, set_onces f w)).
Proof. keeps_prim. Qed.
Hint Resolve keeps_emit keeps_log keeps_cancel keeps_isDone keeps_load
  keeps_newConn keeps_newOnce keeps_getBackend keeps_getFrontend
  keeps_modifyFrontend keeps_set_heap keeps_set_onces : keeps.

Lemma keeps_net_Close nc : keeps quiet (net_Close nc).
Proof. unfold net_Close. keeps_go. Qed.
Hint Resolve keeps_net_Close : keeps.

Lemma keeps_Conn_Close p : keeps quiet (Conn_Close p).
Proof. unfold Conn_Close. keeps_go. Qed.
Hint Resolve keeps_Conn_Close : keeps.

Lemma keeps_backend_addConn k p : keeps quiet (backend_addConn k p).
Proof. unfold backend_addConn. keeps_go; by apply keeps_modifyBackend. Qed.
Lemma keeps_backend_delConn k p : keeps quiet (backend_delConn k p).
Proof. unfold backend_delConn. keeps_go; by apply keeps_modifyBackend. Qed.
Lemma keeps_frontend_addConn j p : keeps quiet (frontend_addConn j p).
Proof. unfold frontend_addConn. keeps_go. Qed.
Lemma keeps_frontend_delConn j p : keeps quiet (frontend_delConn j p).
Proof. unfold frontend_delConn. keeps_go. Qed.
Hint Resolve keeps_backend_addConn keeps_backend_delConn
  keeps_frontend_addConn keeps_frontend_delConn : keeps.

Lemma keeps_manager_addConn p : keeps quiet (manager_addConn p).
Proof. unfold manager_addConn. keeps_go. Qed.
Lemma keeps_manager_delConn p : keeps quiet (manager_delConn p).
Proof. unfold manager_delConn. keeps_go. Qed.
Lemma keeps_getConnCount k : keeps quiet (backend_getConnCount k).
Proof. unfold backend_getConnCount. keeps_go. Qed.
Hint Resolve keeps_manager_addConn keeps_manager_delConn
  keeps_getConnCount : keeps.

Lemma keeps_setActive_false k : keeps quiet (backend_setActive k false).
Proof.
  unfold backend_setActive. keeps_go. apply keeps_modifyBackend. done.
Qed.
Lemma keeps_setActive_other k t : k ≠ i → keeps quiet (backend_setActive k t).
Proof.
  intros Hk. unfold backend_setActive. keeps_go. apply keeps_modifyBackend. done.
Qed.
Lemma keeps_DialContext k r : keeps quiet (DialContext k r).
Proof. unfold DialContext. keeps_go. Qed.
Hint Resolve keeps_setActive_false keeps_DialContext : keeps.

Lemma keeps_createConn k r : keeps quiet (backend_createConn k r).
Proof. unfold backend_createConn. keeps_go. Qed.
Hint Resolve keeps_createConn : keeps.

Lemma probe_eq k r w :
  probe k r w =
    (DialContext k r >>
     match r with
     | inl _ => backend_setActive k false
     | inr nc => net_Close nc >> backend_setActive k true
     end) w.
Proof. reflexivity. Qed.

Lemma keeps_probe k r :
  bool_decide (k = i) && dialOk r = false → keeps quiet (probe k r).
Proof.
  intros Hkr.
  assert (H : keeps quiet
                (DialContext k r >>
                 match r with
                 | inl _ => backend_setActive k false
                 | inr nc => net_Close nc >> backend_setActive k true
                 end)).
  { destruct r as [e|nc]; [keeps_go|].
    cbn in Hkr. rewrite andb_true_r in Hkr.
    apply bool_decide_eq_false in Hkr.
    pose proof (keeps_setActive_other k true Hkr). keeps_go. }
  intros w. rewrite probe_eq. apply H.
Qed.

Lemma keeps_healthcheckLoop k ctx ticks :
  bool_decide (k = i) && dialsOk ticks = false →
  keeps quiet (healthcheckLoop k ctx ticks).
Proof.
  induction ticks as [|[|r] ticks IH]; intros H; cbn [healthcheckLoop].
  - keeps_go.
  - keeps_go.
  - cbn [dialsOk] in H. rewrite andb_orb_distrib_r in H.
    apply orb_false_elim in H as [H1 H2].
    pose proof (keeps_probe k r H1). specialize (IH H2). keeps_go.
Qed.

Lemma keeps_runHealthcheck k first ticks :
  bool_decide (k = i) && (dialOk first || dialsOk ticks) = false →
  keeps quiet (backend_runHealthcheck k first ticks).
Proof.
  intros H. rewrite andb_orb_distrib_r in H.
  apply orb_false_elim in H as [H1 H2].
  pose proof (keeps_probe k first H1).
  pose proof (λ ctx, keeps_healthcheckLoop k ctx ticks H2).
  unfold backend_runHealthcheck. keeps_go.
Qed.

Lemma keeps_closeEach_quiet ps : keeps quiet (closeEach ps).
Proof. apply keeps_closeEach; [apply _|apply keeps_Conn_Close]. Qed.
Hint Resolve keeps_closeEach_quiet : keeps.

Lemma keeps_backend_run k shutdown : keeps quiet (backend_run k shutdown).
Proof. unfold backend_run. keeps_go. Qed.

Lemma keeps_createRemoteConnection r :
  keeps quiet (application_createRemoteConnection r).
Proof.
  intros w. unfold application_createRemoteConnection.
  destruct (selectBackend (backends w)) as [k|]; [|reflexivity].
  revert w. change (keeps quiet
    (do res <- backend_createConn k r;
     match res with
     | inl e => ret (inl (DialError e))
     | inr nc => do p <- newConn nc (ManagerBackend k); ret (inr p)
     end)).
  keeps_go.
Qed.
Hint Resolve keeps_createRemoteConnection : keeps.

Lemma keeps_bindLoop j ctx a tries : keeps quiet (bindLoop j ctx a tries).
Proof.
  induction tries as [|t tries IH]; cbn [bindLoop]; keeps_go.
Qed.
Hint Resolve keeps_bindLoop : keeps.

Lemma keeps_frontend_run j tries shutdown :
  keeps quiet (frontend_run j tries shutdown).
Proof. unfold frontend_run. keeps_go. Qed.

Lemma keeps_acceptLoop j ctx accepts : keeps quiet (acceptLoop j ctx accepts).
Proof.
  induction accepts as [|t accepts IH]; cbn [acceptLoop]; keeps_go.
Qed.
Hint Resolve keeps_acceptLoop : keeps.

Lemma keeps_listenForNewConn j accepts :
  keeps quiet (frontend_listenForNewConn j accepts).
Proof. unfold frontend_listenForNewConn. keeps_go. Qed.

Lemma keeps_Once_Do o f : keeps quiet f → keeps quiet (Once_Do o f).
Proof.
  intros Hf w. unfold Once_Do.
  destruct (onces w !! o) as [[]|]; try reflexivity.
  revert w. change (keeps quiet
    (f >> λ w', (tt, set_onces (λ os, <[o := true]> os) w'))).
  keeps_go.
Qed.

Lemma keeps_closeAll s : keeps quiet (closeAll s).
Proof. unfold closeAll, addrs. keeps_go. Qed.

Lemma keeps_handleNewConnection j nc r :
  keeps quiet (frontend_handleNewConnection j nc r).
Proof. unfold frontend_handleNewConnection. keeps_go. Qed.

Lemma keeps_copyLoop copies : keeps quiet (copyLoop copies).
Proof.
  induction copies as [|[n [e|]] copies IH]; cbn [copyLoop]; keeps_go.
Qed.
Hint Resolve keeps_copyLoop : keeps.

Lemma keeps_relay s copies : keeps quiet (relay s copies).
Proof.
  pose proof (keeps_Once_Do (s_closeOnce s) _ (keeps_closeAll s)).
  unfold relay. keeps_go.
Qed.

(** Every action other than a health probe of backend [i] that dials
    with success leaves backend [i] unpromoted. *)
Lemma step_quiet a w : healthyProbe i a = false → quiet w (step a w).
Proof.
  intros H. destruct a; cbn [step healthyProbe] in *; unfold exec.
  - apply keeps_cancel.
  - apply keeps_Conn_Close.
  - apply keeps_newConn.
  - apply keeps_backend_addConn.
  - apply keeps_backend_delConn.
  - apply keeps_frontend_addConn.
  - apply keeps_frontend_delConn.
  - apply keeps_getConnCount.
  - apply keeps_createConn.
  - by apply keeps_probe.
  - by apply keeps_runHealthcheck.
  - apply keeps_backend_run.
  - apply keeps_createRemoteConnection.
  - apply keeps_frontend_run.
  - apply keeps_listenForNewConn.
  - apply keeps_handleNewConnection.
  - apply keeps_relay.
Qed.

Lemma run_quiet acts w :
  (∀ a, a ∈ acts → healthyProbe i a = false) → quiet w (run acts w).
Proof.
  revert w. induction acts as [|a acts IH]; intros w H; cbn.
  - reflexivity.
  - etrans; [apply step_quiet|apply IH].
    + apply H. by left.
    + intros a' Ha'. apply H. by right.
Qed.
End quiet.

(** ** Selection *)

Lemma imap_pair_sorted (P : nat * backend → Prop) `{!∀ x, Decision (P x)}
    (bs : list backend) (n : nat) :
  StronglySorted byIndex (filter P (imap (λ k, pair (n + k)%nat) bs))
  ∧ Forall (λ x, n ≤ x.1)%nat (filter P (imap (λ k, pair (n + k)%nat) bs)).
Proof.
  revert n. induction bs as [|b bs IH]; intros n.
  - cbn. split; constructor.
  - rewrite imap_cons.
    assert (Hext : imap ((λ k, pair (n + k)%nat) ∘ S) bs
                   = imap (λ k, pair (S n + k)%nat) bs).
    { apply imap_ext. intros k x _. cbn. f_equal. lia. }
    rewrite Hext. destruct (IH (S n)) as [Hs Hf].
    assert (Hf' : Forall (λ x : nat * backend, n ≤ x.1)%nat
                    (filter P (imap (λ k, pair (S n + k)%nat) bs))).
    { eapply Forall_impl; [exact Hf|]. cbn. intros; lia. }
    rewrite filter_cons. destruct (decide (P ((n + 0)%nat, b))).
    + split.
      * constructor; [done|]. eapply Forall_impl; [exact Hf|].
        unfold byIndex. cbn. intros; lia.
      * constructor; [cbn; lia|done].
    + done.
Qed.

Lemma activeBackends_sorted bs : StronglySorted byIndex (activeBackends bs).
Proof.
  unfold activeBackends.
  destruct (imap_pair_sorted (λ ib : nat * backend, active ib.2 = true) bs 0)
    as [H _].
  exact H.
Qed.

Lemma elem_of_activeBackends bs i b :
  (i, b) ∈ activeBackends bs ↔ bs !! i = Some b ∧ active b = true.
Proof.
  unfold activeBackends. rewrite list_elem_of_filter, elem_of_lookup_imap.
  cbn. split.
  - intros [Ha (k & y & Heq & Hk)]. by simplify_eq.
  - intros [Hi Ha]. split; [done|]. by exists i, b.
Qed.

Lemma leastLoaded_spec cands best :
  StronglySorted byIndex (best :: cands) →
  leastLoaded best cands ∈ best :: cands
  ∧ ∀ c, c ∈ best :: cands →
      (connCount (leastLoaded best cands).2 ≤ connCount c.2)%nat
      ∧ (connCount c.2 = connCount (leastLoaded best cands).2 →
         ((leastLoaded best cands).1 ≤ c.1)%nat).
Proof.
  revert best. induction cands as [|c cands IH]; intros best Hs.
  - cbn. split; [by left|]. intros c Hc. apply list_elem_of_singleton in Hc.
    subst. split; lia.
  - cbn [leastLoaded]. inversion Hs as [|? ? Hs' Hall]; subst.
    destruct (connCount c.2 <? connCount best.2)%nat eqn:Hlt.
    + apply Nat.ltb_lt in Hlt. destruct (IH c Hs') as [Hin Hmin].
      split; [by right|]. intros x Hx.
      apply elem_of_cons in Hx as [->|Hx]; [|by apply Hmin].
      destruct (Hmin c) as [Hle _]; [by left|]. split; lia.
    + apply Nat.ltb_ge in Hlt.
      assert (Hs'' : StronglySorted byIndex (best :: cands)).
      { inversion Hs'; subst. inversion Hall; subst. by constructor. }
      destruct (IH best Hs'') as [Hin Hmin].
      split.
      { apply elem_of_cons in Hin as [->|Hin]; [by left|]. right. by right. }
      intros x Hx.
      destruct (Hmin best) as [Hle Htie]; [by left|].
      apply elem_of_cons in Hx as [->|Hx].
      { by apply Hmin; left. }
      apply elem_of_cons in Hx as [->|Hx].
      * split; [lia|]. intros Heq.
        inversion Hall as [|? ? Hbc _]; subst. unfold byIndex in Hbc.
        assert ((leastLoaded best cands).1 ≤ best.1)%nat by (apply Htie; lia).
        lia.
      * apply Hmin. by right.
Qed.

(** What [selectBackend] returns: nothing exactly when no backend is
    active; else the first of the active backends with the least count. *)
Lemma selectBackend_None bs :
  selectBackend bs = None ↔ ∀ b, b ∈ bs → active b = false.
Proof.
  unfold selectBackend. split.
  - destruct (activeBackends bs) eqn:Hab; [|done]. intros _ b Hb.
    apply list_elem_of_lookup in Hb as [i Hi].
    destruct (active b) eqn:Ha; [|done].
    assert (H : (i, b) ∈ activeBackends bs) by by apply elem_of_activeBackends.
    rewrite Hab in H. by apply not_elem_of_nil in H.
  - intros H. destruct (activeBackends bs) as [|[i b] l] eqn:Hab; [done|].
    assert (Hin : (i, b) ∈ activeBackends bs) by (rewrite Hab; by left).
    apply elem_of_activeBackends in Hin as [Hi Ha].
    rewrite (H b) in Ha; [done|]. by eapply list_elem_of_lookup_2.
Qed.

Lemma selectBackend_Some bs i :
  selectBackend bs = Some i →
  ∃ b, bs !! i = Some b ∧ active b = true
       ∧ ∀ j b', bs !! j = Some b' → active b' = true →
           (connCount b ≤ connCount b')%nat
           ∧ (connCount b' = connCount b → (i ≤ j)%nat).
Proof.
  unfold selectBackend. pose proof (activeBackends_sorted bs) as Hs.
  destruct (activeBackends bs) as [|c l] eqn:Hab; [done|].
  intros [= <-]. destruct (leastLoaded_spec l c Hs) as [Hin Hmin].
  rewrite <- Hab in Hin. destruct (leastLoaded c l) as [i b] eqn:Hll.
  apply elem_of_activeBackends in Hin as [Hi Ha].
  exists b. split; [done|]. split; [done|]. intros j b' Hj Ha'.
  apply (Hmin (j, b')). rewrite <- Hab. by apply elem_of_activeBackends.
Qed.

(** C3: when some backend is active, [createRemoteConnection] dials one
    backend, which is active, whose [getConnCount()] is the least among
    the active backends, and which comes first among those with that
    count. *)
Theorem C3_least_loaded_first (w : world) (r : dial_result) :
  (∃ k, isActive w k) →
  ∃ i, selectBackend (backends w) = Some i
    ∧ isActive w i
    ∧ (∀ j, isActive w j →
         (eval (backend_getConnCount i) w ≤ eval (backend_getConnCount j) w)%nat
         ∧ (eval (backend_getConnCount j) w = eval (backend_getConnCount i) w →
            (i ≤ j)%nat))
    ∧ application_createRemoteConnection r w =
        (do res <- backend_createConn i r;
         match res with
         | inl e => ret (inl (DialError e))
         | inr nc => do p <- newConn nc (ManagerBackend i); ret (inr p)
         end) w.
Proof.
  intros [k Hk]. unfold isActive in *.
  destruct (selectBackend (backends w)) as [i|] eqn:Hsel.
  - exists i. split; [done|].
    destruct (selectBackend_Some _ _ Hsel) as (b & Hi & Ha & Hmin).
    split; [by rewrite Hi; cbn; rewrite Ha|]. split.
    + intros j Hj. unfold eval, backend_getConnCount, bind, getBackend, ret.
      cbn. destruct (backends w !! j) as [b'|] eqn:Hjb; [|done].
      cbn in Hj. rewrite Hi. cbn. apply (Hmin j b'); [done|congruence].
    + unfold application_createRemoteConnection. by rewrite Hsel.
  - exfalso. destruct (backends w !! k) as [b|] eqn:Hkb; [|done].
    cbn in Hk. pose proof (proj1 (selectBackend_None _) Hsel b) as H.
    rewrite H in Hk; [done|]. by eapply list_elem_of_lookup_2.
Qed.

Lemma C3_least_loaded_first_witness :
  selectBackend (backends C3_world) = Some 1%nat
  ∧ eval (backend_getConnCount 1) C3_world = 1%nat
  ∧ eval (backend_getConnCount 3) C3_world = 1%nat
  ∧ eval (backend_getConnCount 2) C3_world = 2%nat.
Proof.
  destruct (C3_least_loaded_first C3_world (inl (NetError "refused")))
    as (i & Hsel & _).
  - exists 2%nat. reflexivity.
  - vm_compute in Hsel. injection Hsel as <-. repeat split; reflexivity.
Defined.

(** C6: when no backend is active, [createRemoteConnection] fails with
    [NoBackend] and leaves the world as it is, so it dials nothing; the
    accept handler logs, closes the accepted socket and returns, and no
    handle is made or put in a map. *)
Theorem C6_no_backend (w : world) (j : nat) (nc : NetConn) (r : dial_result) :
  (∀ b, b ∈ backends w → active b = false) →
  application_createRemoteConnection r w = (inl NoBackend, w)
  ∧ frontend_handleNewConnection j nc r w =
      (None,
       mkWorld (done w) (heap w) (onces w) (backends w) (frontends w)
         (trace w ++ [EvLog ErrorLevel "can't find next backend";
                      EvLog Debug (closingMsg (remoteAddr nc) (localAddr nc));
                      EvNetClose (sock nc)])).
Proof.
  intros Hall. apply selectBackend_None in Hall.
  assert (H : application_createRemoteConnection r w = (inl NoBackend, w)).
  { unfold application_createRemoteConnection. by rewrite Hall. }
  split; [done|]. unfold frontend_handleNewConnection, bind at 1. rewrite H.
  wsimpl. by rewrite <- !app_assoc.
Qed.

Lemma C6_no_backend_witness :
  (frontend_handleNewConnection 0 C6_client (inr C6_upstream) C6_world).1 = None
  ∧ trace (exec (frontend_handleNewConnection 0 C6_client (inr C6_upstream))
             C6_world)
    = [EvLog ErrorLevel "can't find next backend";
       EvLog Debug (closingMsg (remoteAddr C6_client) (localAddr C6_client));
       EvNetClose (sock C6_client)].
Proof.
  destruct (C6_no_backend C6_world 0 C6_client (inr C6_upstream)) as [_ H].
  - intros b Hb. vm_compute in Hb.
    repeat (apply elem_of_cons in Hb as [->|Hb]; [reflexivity|]).
    by apply not_elem_of_nil in Hb.
  - unfold exec. rewrite H. split; reflexivity.
Defined.

(** ** Registration under a cancelled context *)

Lemma Conn_Close_spec w p c :
  heap w !! p = Some c →
  Conn_Close p w =
    (if closed c then None else closeErr (netConn c),
     mkWorld (done w) (<[p := set_closed true c]> (heap w)) (onces w)
       (backends w) (frontends w)
       (trace w ++ if closed c then [] else [EvNetClose (sock (netConn c))])).
Proof.
  intros Hp. destruct (closed c) eqn:Hc.
  - rewrite (Conn_Close_closed w p c Hp Hc). f_equal.
    replace (set_closed true c) with c by (destruct c; cbn in *; by subst).
    rewrite list_insert_id by done. rewrite app_nil_r. by destruct w.
  - by rewrite (Conn_Close_open w p c Hp Hc).
Qed.

(** What [backend.addConn] does, whatever the state of the context. *)
Lemma backend_addConn_spec w i p b c :
  backends w !! i = Some b → heap w !! p = Some c →
  backend_addConn i p w =
    (tt,
     mkWorld (done w)
       (if bool_decide (b_ctx b ∈ done w)
        then <[p := set_closed true c]> (heap w) else heap w)
       (onces w)
       (<[i := set_b_connections (insert (fd c) p) b]> (backends w))
       (frontends w)
       (trace w ++ if bool_decide (b_ctx b ∈ done w) && negb (closed c)
                   then [EvNetClose (sock (netConn c))] else [])).
Proof.
  intros Hi Hp. unfold backend_addConn. wsimpl. rewrite Hi, Hp. wsimpl.
  destruct (bool_decide (b_ctx b ∈ done w)); wsimpl.
  - rewrite (Conn_Close_spec w p c Hp). wsimpl. rewrite Hi.
    by destruct (closed c).
  - rewrite Hi. by rewrite app_nil_r.
Qed.

Lemma frontend_addConn_spec w j p fr c :
  frontends w !! j = Some fr → heap w !! p = Some c →
  frontend_addConn j p w =
    (tt,
     mkWorld (done w)
       (if bool_decide (f_ctx fr ∈ done w)
        then <[p := set_closed true c]> (heap w) else heap w)
       (onces w) (backends w)
       (<[j := set_f_connections (insert (fd c) p) fr]> (frontends w))
       (trace w ++ if bool_decide (f_ctx fr ∈ done w) && negb (closed c)
                   then [EvNetClose (sock (netConn c))] else [])).
Proof.
  intros Hj Hp. unfold frontend_addConn. wsimpl. rewrite Hj, Hp. wsimpl.
  destruct (bool_decide (f_ctx fr ∈ done w)); wsimpl.
  - rewrite (Conn_Close_spec w p c Hp). wsimpl. rewrite Hj.
    by destruct (closed c).
  - rewrite Hj. by rewrite app_nil_r.
Qed.

Lemma backend_delConn_spec w i p b c :
  backends w !! i = Some b → heap w !! p = Some c →
  backend_delConn i p w =
    (tt,
     if bool_decide (b_ctx b ∈ done w) then w
     else set_backends (insert i (set_b_connections (delete (fd c)) b)) w).
Proof.
  intros Hi Hp. unfold backend_delConn. wsimpl. rewrite Hi, Hp. wsimpl.
  destruct (bool_decide (b_ctx b ∈ done w)); [done|]. wsimpl. by rewrite Hi.
Qed.

Lemma frontend_delConn_spec w j p fr c :
  frontends w !! j = Some fr → heap w !! p = Some c →
  frontend_delConn j p w =
    (tt,
     if bool_decide (f_ctx fr ∈ done w) then w
     else set_frontends (insert j (set_f_connections (delete (fd c)) fr)) w).
Proof.
  intros Hj Hp. unfold frontend_delConn. wsimpl. rewrite Hj, Hp. wsimpl.
  destruct (bool_decide (f_ctx fr ∈ done w)); [done|]. wsimpl. by rewrite Hj.
Qed.

(** Under a cancelled context [addConn] closes the handle and then stores
    it all the same. *)
Lemma backend_addConn_cancelled w i p b c :
  backends w !! i = Some b → heap w !! p = Some c → b_ctx b ∈ done w →
  let w' := exec (backend_addConn i p) w in
  closed <$> heap w' !! p = Some true ∧ inBackendMap w' i (fd c) p.
Proof.
  intros Hi Hp Hd w'. subst w'. unfold exec, inBackendMap.
  rewrite (backend_addConn_spec w i p b c Hi Hp). wsimpl.
  rewrite bool_decide_true by done. split.
  - rewrite list_lookup_insert_eq by (by eapply lookup_lt_Some). done.
  - eexists. rewrite list_lookup_insert_eq by (by eapply lookup_lt_Some).
    split; [done|]. cbn. by rewrite lookup_insert_eq.
Qed.

Lemma frontend_addConn_cancelled w j p fr c :
  frontends w !! j = Some fr → heap w !! p = Some c → f_ctx fr ∈ done w →
  let w' := exec (frontend_addConn j p) w in
  closed <$> heap w' !! p = Some true ∧ inFrontendMap w' j (fd c) p.
Proof.
  intros Hj Hp Hd w'. subst w'. unfold exec, inFrontendMap.
  rewrite (frontend_addConn_spec w j p fr c Hj Hp). wsimpl.
  rewrite bool_decide_true by done. split.
  - rewrite list_lookup_insert_eq by (by eapply lookup_lt_Some). done.
  - eexists. rewrite list_lookup_insert_eq by (by eapply lookup_lt_Some).
    split; [done|]. cbn. by rewrite lookup_insert_eq.
Qed.

(** C1 fails on the code: with the context cancelled, [addConn] of a
    backend and of a frontend closes the handle (one close reaches the
    socket) and the handle is in the map afterwards, under its
    descriptor. *)
Theorem C1_addConn_cancelled_still_inserts :
  let wb := exec (backend_addConn 0 0) C1_world in
  let wf := exec (frontend_addConn 0 0) C1_world in
  0%nat ∈ done C1_world
  ∧ (closed <$> heap wb !! 0%nat = Some true
     ∧ netCloses 21 (trace wb) = 1%nat
     ∧ inBackendMap wb 0 22 0)
  ∧ (closed <$> heap wf !! 0%nat = Some true
     ∧ netCloses 21 (trace wf) = 1%nat
     ∧ inFrontendMap wf 0 22 0).
Proof.
  assert (Hd : 0%nat ∈ done C1_world) by (apply (bool_decide_unpack _); vm_compute; exact I).
  split; [exact Hd|]. split.
  - destruct (backend_addConn_cancelled C1_world 0 0 _ _ eq_refl eq_refl Hd)
      as [Hc Hm].
    split; [exact Hc|]. split; [reflexivity|exact Hm].
  - destruct (frontend_addConn_cancelled C1_world 0 0 _ _ eq_refl eq_refl Hd)
      as [Hc Hm].
    split; [exact Hc|]. split; [reflexivity|exact Hm].
Qed.

(** C10: under a cancelled context [delConn], of a backend and of a
    frontend, returns with the world as it was; a handle that sat in the
    map sits there still. *)
Theorem C10_delConn_cancelled_noop (w : world) (p : nat) :
  (∀ i b, backends w !! i = Some b → b_ctx b ∈ done w →
     backend_delConn i p w = (tt, w)
     ∧ ∀ k q, inBackendMap w i k q →
              inBackendMap (exec (backend_delConn i p) w) i k q)
  ∧ (∀ j fr, frontends w !! j = Some fr → f_ctx fr ∈ done w →
     frontend_delConn j p w = (tt, w)
     ∧ ∀ k q, inFrontendMap w j k q →
              inFrontendMap (exec (frontend_delConn j p) w) j k q).
Proof.
  split.
  - intros i b Hi Hd.
    assert (H : backend_delConn i p w = (tt, w)).
    { unfold backend_delConn. wsimpl. rewrite Hi.
      destruct (heap w !! p); [|done]. cbn. by rewrite bool_decide_true. }
    split; [done|]. unfold exec. by rewrite H.
  - intros j fr Hj Hd.
    assert (H : frontend_delConn j p w = (tt, w)).
    { unfold frontend_delConn. wsimpl. rewrite Hj.
      destruct (heap w !! p); [|done]. cbn. by rewrite bool_decide_true. }
    split; [done|]. unfold exec. by rewrite H.
Qed.

Lemma C10_delConn_cancelled_noop_witness :
  backend_delConn 0 0 C10_world = (tt, C10_world)
  ∧ inBackendMap (exec (backend_delConn 0 0) C10_world) 0 22 0
  ∧ frontend_delConn 0 1 C10_world = (tt, C10_world)
  ∧ inFrontendMap (exec (frontend_delConn 0 1) C10_world) 0 23 1.
Proof.
  assert (Hd : 0%nat ∈ done C10_world) by (apply (bool_decide_unpack _); vm_compute; exact I).
  destruct (C10_delConn_cancelled_noop C10_world 0) as [Hb _].
  destruct (C10_delConn_cancelled_noop C10_world 1) as [_ Hf].
  destruct (Hb 0%nat _ eq_refl Hd) as [Hb1 Hb2].
  destruct (Hf 0%nat _ eq_refl Hd) as [Hf1 Hf2].
  split; [exact Hb1|]. split.
  { apply Hb2. eexists. split; reflexivity. }
  split; [exact Hf1|].
  apply Hf2. eexists. split; reflexivity.
Defined.

(** ** Health marking *)

Lemma backend_setActive_spec w i b t :
  backends w !! i = Some b →
  active <$> backends (exec (backend_setActive i t) w) !! i = Some t.
Proof.
  intros Hi. unfold exec, backend_setActive. wsimpl. rewrite Hi.
  destruct (bool_decide_reflect (active b = negb t)) as [Heq|Hne]; wsimpl.
  - rewrite Hi. rewrite list_lookup_insert_eq by (by eapply lookup_lt_Some).
    done.
  - rewrite Hi. cbn. f_equal. destruct (active b), t; cbn in *; congruence.
Qed.

Lemma probe_ok_spec w i b nc :
  backends w !! i = Some b →
  active <$> backends (exec (probe i (inr nc)) w) !! i = Some true.
Proof.
  intros Hi. unfold exec. rewrite probe_eq. unfold DialContext. wsimpl.
  apply (backend_setActive_spec _ i b true). exact Hi.
Qed.

Lemma createConn_failed_spec w i b e :
  backends w !! i = Some b →
  eval (backend_createConn i (inl e)) w = inl (Wrap e "Dial()")
  ∧ active <$> backends (exec (backend_createConn i (inl e)) w) !! i
    = Some false.
Proof.
  intros Hi. unfold eval, exec, backend_createConn, DialContext. wsimpl.
  set (w1 := mkWorld _ _ _ _ _ _).
  pose proof (backend_setActive_spec w1 i b false Hi) as H.
  unfold exec in H. destruct (backend_setActive i false w1) as [[] w2].
  by cbn in *.
Qed.

Lemma createConn_ok_spec w i nc :
  eval (backend_createConn i (inr nc)) w = inr nc
  ∧ backends (exec (backend_createConn i (inr nc)) w) = backends w.
Proof. by unfold eval, exec, backend_createConn, DialContext. Qed.

Lemma not_quiet_healthyProbe i acts w b :
  backends w !! i = Some b → active b = false →
  isActive (run acts w) i →
  ∃ a, a ∈ acts ∧ healthyProbe i a = true.
Proof.
  intros Hi Hb Hact.
  destruct (decide (Exists (λ a, healthyProbe i a = true) acts)) as [Hex|Hno].
  - apply Exists_exists in Hex. exact Hex.
  - exfalso. apply not_Exists_Forall in Hno; [|apply _].
    rewrite Forall_forall in Hno.
    assert (Hq : quietAt i w (run acts w)).
    { apply run_quiet. intros a Ha. specialize (Hno a Ha). cbn in Hno.
      by destruct (healthyProbe i a). }
    destruct (quiet_lookup i _ _ b Hq Hi Hb) as (b' & Hi' & Hb').
    unfold isActive in Hact. rewrite Hi' in Hact. cbn in Hact. congruence.
Qed.

(** C5: a traffic dial that fails returns the wrapped dial error and
    leaves the backend inactive; one that succeeds returns the socket and
    leaves every backend as it was; and from the world a failed traffic
    dial leaves, whatever the package does next, if the backend is active
    again then a health probe of that backend has dialled with success in
    between; such a probe does make it active. *)
Theorem C5_passive_marking (w : world) (i : nat) (b : backend) :
  backends w !! i = Some b →
  (∀ e, eval (backend_createConn i (inl e)) w = inl (Wrap e "Dial()")
        ∧ active <$> backends (exec (backend_createConn i (inl e)) w) !! i
          = Some false)
  ∧ (∀ nc, eval (backend_createConn i (inr nc)) w = inr nc
           ∧ backends (exec (backend_createConn i (inr nc)) w) = backends w)
  ∧ (∀ e, let w1 := exec (backend_createConn i (inl e)) w in
       (∀ acts, isActive (run acts w1) i →
                ∃ a, a ∈ acts ∧ healthyProbe i a = true)
       ∧ ∀ nc, isActive (step (AProbe i (inr nc)) w1) i).
Proof.
  intros Hi. split; [intros e; by apply (createConn_failed_spec w i b)|].
  split; [intros nc; apply createConn_ok_spec|].
  intros e w1.
  destruct (createConn_failed_spec w i b e Hi) as [_ Hf]. fold w1 in Hf.
  destruct (backends w1 !! i) as [b1|] eqn:Hi1; [|done].
  cbn in Hf. injection Hf as Hf. split.
  - intros acts. by apply (not_quiet_healthyProbe i acts w1 b1).
  - intros nc. by apply (probe_ok_spec w1 i b1).
Qed.

Lemma C5_passive_marking_witness :
  let e := NetError "dial tcp 10.0.0.2:9000: connect: connection refused" in
  let w1 := exec (backend_createConn 0 (inl e)) C5_world in
  isActive C5_world 0
  ∧ eval (backend_createConn 0 (inl e)) C5_world = inl (Wrap e "Dial()")
  ∧ ¬ isActive w1 0
  ∧ ¬ isActive (step (ACreateConn 0 (inr upstreamConn)) w1) 0
  ∧ isActive (step (AProbe 0 (inr upstreamConn)) w1) 0.
Proof.
  intros e w1.
  destruct (C5_passive_marking C5_world 0 _ eq_refl) as (Hfail & _ & Hrec).
  destruct (Hfail e) as [Hret Hoff]. destruct (Hrec e) as [Honly Hprobe].
  split; [reflexivity|]. split; [exact Hret|]. split.
  { unfold isActive. fold w1 in Hoff. rewrite Hoff. discriminate. }
  split; [|exact (Hprobe upstreamConn)].
  intros Hact.
  destruct (Honly [ACreateConn 0 (inr upstreamConn)] Hact) as (a & Ha & Hp).
  apply list_elem_of_singleton in Ha. subst a. discriminate Hp.
Defined.

(** C9: a backend that [newBackend] returns is inactive; placed in an
    application it stays inactive, and is not what the selection picks,
    through everything the package does short of a health probe of it
    that dials with success; the first dial of [runHealthcheck], when it
    succeeds, makes it active. *)
Theorem C9_fresh_backend_inactive (SplitHostPort : string → option error)
    (ctx : nat) (address : string) (b : backend) :
  newBackend SplitHostPort ctx address = inr b →
  active b = false
  ∧ ∀ w i, backends w !! i = Some b →
      ¬ isActive w i
      ∧ (∀ acts, (∀ a, a ∈ acts → healthyProbe i a = false) →
           ¬ isActive (run acts w) i
           ∧ selectBackend (backends (run acts w)) ≠ Some i)
      ∧ ∀ nc, isActive (exec (backend_runHealthcheck i (inr nc) []) w) i.
Proof.
  unfold newBackend. destruct (SplitHostPort address); [done|].
  intros [= <-]. split; [done|]. intros w i Hi. split.
  { unfold isActive. by rewrite Hi. }
  split.
  - intros acts Hacts.
    pose proof (run_quiet i acts w Hacts) as Hq.
    destruct (quiet_lookup i _ _ _ Hq Hi eq_refl) as (b' & Hi' & Hb').
    assert (Hna : ¬ isActive (run acts w) i).
    { unfold isActive. rewrite Hi'. cbn. congruence. }
    split; [done|]. intros Hsel.
    destruct (selectBackend_Some _ _ Hsel) as (b2 & Hi2 & Ha2 & _). congruence.
  - intros nc. unfold exec, backend_runHealthcheck. wsimpl. rewrite Hi.
    wsimpl. cbn [healthcheckLoop]. wsimpl.
    pose proof (probe_ok_spec w i _ nc Hi) as H. unfold exec in H.
    destruct (probe i (inr nc) w) as [[] w']. exact H.
Qed.

Lemma C9_fresh_backend_inactive_witness :
  newBackend (λ _, None) 0 "10.0.0.2:9000" = inr C9_backend
  ∧ active C9_backend = false
  ∧ ¬ isActive (run C9_actions C9_world) 1
  ∧ selectBackend (backends (run C9_actions C9_world)) = Some 0%nat.
Proof.
  destruct (C9_fresh_backend_inactive (λ _, None) 0 "10.0.0.2:9000" C9_backend
              eq_refl) as [Hoff Hstay].
  destruct (Hstay C9_world 1%nat eq_refl) as (_ & Hrun & _).
  destruct (Hrun C9_actions) as [Hna _].
  - intros a Ha. unfold C9_actions in Ha.
    repeat (apply elem_of_cons in Ha as [->|Ha]; [reflexivity|]).
    by apply not_elem_of_nil in Ha.
  - split; [reflexivity|]. split; [exact Hoff|]. split; [exact Hna|].
    vm_compute. reflexivity.
Defined.

(** ** The bind loop and the accept loop *)

Lemma set_trace_app t1 t2 w :
  set_trace (λ t, t ++ t2) (set_trace (λ t, t ++ t1) w)
  = set_trace (λ t, t ++ (t1 ++ t2)) w.
Proof. unfold set_trace. cbn. by rewrite app_assoc. Qed.

Lemma set_trace_nil w : set_trace (λ t, t ++ []) w = w.
Proof. unfold set_trace. rewrite app_nil_r. by destruct w. Qed.

Lemma isDone_false c w : c ∉ done w → bool_decide (c ∈ done w) = false.
Proof. intros H. by apply bool_decide_eq_false. Qed.

(** However many binds fail, the loop has logged, slept five seconds and
    gone round for each, and is where it started. *)
Lemma bindLoop_retries j ctx a errs rest w :
  ctx ∉ done w →
  bindLoop j ctx a (failedBinds errs ++ rest) w
  = bindLoop j ctx a rest (set_trace (λ t, t ++ retryTrace a errs) w).
Proof.
  revert w. induction errs as [|e errs IH]; intros w Hd.
  - cbn. by rewrite set_trace_nil.
  - cbn [failedBinds fmap list_fmap app bindLoop bind_cancelled listen_result].
    wsimpl. rewrite (isDone_false _ _ Hd).
    fold (failedBinds errs).
    change (mkWorld (done w) (heap w) (onces w) (backends w) (frontends w)
              (((trace w ++ [EvListen a]) ++ [EvLog ErrorLevel "ListenTCP()"])
               ++ [EvSleep (5 * Second)]))
      with (set_trace (λ t, ((t ++ [EvListen a])
                             ++ [EvLog ErrorLevel "ListenTCP()"])
                            ++ [EvSleep (5 * Second)]) w).
    rewrite IH by done. f_equal. unfold set_trace, retryTrace. cbn.
    by rewrite <- !app_assoc.
Qed.

(** C8: a frontend whose context is already cancelled returns from [run]
    before it binds.  With the context live, after any number of failed
    binds [run] has made that many attempts, each followed by an error
    log and a sleep of five seconds, has touched nothing else and has not
    returned; if the context is then found cancelled at the top of the
    loop, [run] returns with the frontend as it was, so without a
    listener, and binds no more; if the next bind succeeds, the listener
    is stored and [run] goes on to start the accept loop. *)
Theorem C8_bind_retry (w : world) (j : nat) (fr : frontend) :
  frontends w !! j = Some fr →
  (f_ctx fr ∈ done w →
   ∀ t tries sd, frontend_run j (t :: tries) sd w
                 = (Returned, if bind_cancelled t
                              then set_done (λ d, {[f_ctx fr]} ∪ d) w else w))
  ∧ (f_ctx fr ∉ done w →
     ∀ errs,
       let retried := set_trace (λ t, t ++ retryTrace (laddr fr) errs) w in
       (∀ sd, frontend_run j (failedBinds errs) sd w = (Running, retried))
       ∧ (∀ r rest sd,
            frontend_run j (failedBinds errs ++ mkBindTry true r :: rest) sd w
            = (Returned, set_done (λ d, {[f_ctx fr]} ∪ d) retried))
       ∧ (∀ l rest,
            frontend_run j (failedBinds errs ++ mkBindTry false (inr l) :: rest)
              false w
            = (Running,
               set_trace (λ t, t ++ [EvListen (laddr fr);
                                     EvGo (GoListenForNewConn j)])
                 (set_frontends (insert j (set_tcpListener (Some l) fr))
                    retried)))).
Proof.
  intros Hj. split.
  - intros Hd t tries sd. unfold frontend_run. wsimpl. rewrite Hj.
    cbn [bindLoop]. wsimpl. destruct (bind_cancelled t); wsimpl.
    + rewrite bool_decide_true by set_solver. done.
    + rewrite bool_decide_true by done. done.
  - intros Hd errs retried. split; [|split].
    + intros sd. unfold frontend_run. wsimpl. rewrite Hj.
      rewrite <- (app_nil_r (failedBinds errs)).
      rewrite bindLoop_retries by done. done.
    + intros r rest sd. unfold frontend_run. wsimpl. rewrite Hj.
      rewrite bindLoop_retries by done. cbn [bindLoop bind_cancelled].
      wsimpl. rewrite bool_decide_true by set_solver. done.
    + intros l rest. unfold frontend_run. wsimpl. rewrite Hj.
      rewrite bindLoop_retries by done.
      cbn [bindLoop bind_cancelled listen_result]. wsimpl.
      rewrite (isDone_false _ _ Hd). wsimpl. rewrite Hj. wsimpl.
      subst retried. wsimpl. by rewrite <- !app_assoc.
Qed.

Lemma C8_bind_retry_witness :
  frontend_run 0 (failedBinds C8_errs) false C8_world
  = (Running,
     set_trace (λ _, [EvListen ":7000"; EvLog ErrorLevel "ListenTCP()";
                      EvSleep 5000000000;
                      EvListen ":7000"; EvLog ErrorLevel "ListenTCP()";
                      EvSleep 5000000000]) C8_world)
  ∧ tcpListener <$> frontends
      (exec (frontend_run 0 (failedBinds C8_errs
                             ++ [mkBindTry true (inr (mkListener 3))]) false)
         C8_world) !! 0%nat = Some None
  ∧ tcpListener <$> frontends
      (exec (frontend_run 0 (failedBinds C8_errs
                             ++ [mkBindTry false (inr (mkListener 3))]) false)
         C8_world) !! 0%nat = Some (Some (mkListener 3)).
Proof.
  destruct (C8_bind_retry C8_world 0 _ eq_refl) as [_ H].
  assert (Hd : 0%nat ∉ done C8_world) by (cbn; set_solver).
  destruct (H Hd C8_errs) as (H1 & H2 & H3).
  split; [exact (H1 false)|]. unfold exec. rewrite H2, H3.
  split; reflexivity.
Defined.

Lemma acceptLoop_trace j ctx accepts w :
  ∃ t, trace (acceptLoop j ctx accepts w).2 = trace w ++ t.
Proof.
  revert w. induction accepts as [|a accepts IH]; intros w.
  - exists []. cbn. by rewrite app_nil_r.
  - cbn [acceptLoop].
    assert (Hc : ∃ w0, (if accept_cancelled a then cancel ctx else ret tt) w
                       = (tt, w0) ∧ trace w0 = trace w).
    { destruct (accept_cancelled a); eexists; split; reflexivity. }
    destruct Hc as (w0 & Hc & Ht0). unfold bind at 1. rewrite Hc.
    wsimpl. destruct (bool_decide (ctx ∈ done w0)).
    { exists []. cbn. by rewrite app_nil_r, Ht0. }
    destruct (accept_result a) as [err|nc].
    + destruct (Contains (Error err) closedListener).
      * eexists. cbn. by rewrite Ht0.
      * edestruct IH as [t Ht]. eexists. rewrite Ht. cbn.
        by rewrite Ht0, <- !app_assoc.
    + edestruct IH as [t Ht]. eexists. rewrite Ht. cbn.
      by rewrite Ht0, <- !app_assoc.
Qed.

(** C7, as amended: with the context live when the turn starts, an
    accept error that carries "use of closed network connection" makes
    the loop return without a log line; any other accept error is logged
    at info level and the loop goes back to its top with no sleep, where
    it returns if the context has been cancelled meanwhile and else
    accepts again at once. *)
Theorem C7_accept_errors (w : world) (j : nat) (fr : frontend)
    (err : error) (rest : list accept_try) :
  frontends w !! j = Some fr → f_ctx fr ∉ done w →
  (Contains (Error err) closedListener = true →
   frontend_listenForNewConn j (mkAcceptTry false (inl err) :: rest) w
   = (Returned, set_trace (λ t, t ++ [EvAccept j]) w))
  ∧ (Contains (Error err) closedListener = false →
     let w1 := set_trace (λ t, t ++ [EvAccept j; EvLog Info "AcceptTCP()"]) w in
     frontend_listenForNewConn j (mkAcceptTry false (inl err) :: rest) w
     = frontend_listenForNewConn j rest w1
     ∧ (∀ r rest',
          frontend_listenForNewConn j (mkAcceptTry true r :: rest') w1
          = (Returned, set_done (λ d, {[f_ctx fr]} ∪ d) w1))
     ∧ (∀ r rest', ∃ t,
          trace (exec (frontend_listenForNewConn j
                         (mkAcceptTry false r :: rest')) w1)
          = trace w1 ++ EvAccept j :: t)).
Proof.
  intros Hj Hd. split.
  - intros Hc. unfold frontend_listenForNewConn. wsimpl. rewrite Hj.
    cbn [acceptLoop accept_cancelled accept_result]. wsimpl.
    rewrite (isDone_false _ _ Hd), Hc. done.
  - intros Hc w1. split; [|split].
    + unfold frontend_listenForNewConn. wsimpl. rewrite Hj.
      cbn [acceptLoop accept_cancelled accept_result]. wsimpl.
      rewrite (isDone_false _ _ Hd), Hc. wsimpl. subst w1. wsimpl.
      rewrite Hj. by rewrite <- !app_assoc.
    + intros r rest'. subst w1. unfold frontend_listenForNewConn. wsimpl.
      rewrite Hj. cbn [acceptLoop accept_cancelled]. wsimpl.
      rewrite bool_decide_true by set_solver. done.
    + intros r rest'. subst w1. unfold exec, frontend_listenForNewConn.
      wsimpl. rewrite Hj. cbn [acceptLoop accept_cancelled accept_result]. wsimpl.
      rewrite (isDone_false _ _ Hd).
      destruct r as [e|nc].
      * destruct (Contains (Error e) closedListener).
        { exists []. done. }
        match goal with
        | |- context [acceptLoop j ?c rest' ?w'] =>
            destruct (acceptLoop_trace j c rest' w') as [t Ht]
        end.
        eexists. rewrite Ht. cbn. by rewrite <- !app_assoc.
      * match goal with
        | |- context [acceptLoop j ?c rest' ?w'] =>
            destruct (acceptLoop_trace j c rest' w') as [t Ht]
        end.
        eexists. rewrite Ht. cbn. by rewrite <- !app_assoc.
Qed.

Lemma C7_accept_errors_witness :
  frontend_listenForNewConn 0 [mkAcceptTry false (inl C7_closed)] C7_world
  = (Returned, set_trace (λ _, [EvAccept 0]) C7_world)
  ∧ ∃ t, trace (exec (frontend_listenForNewConn 0
                        [mkAcceptTry false (inl C7_err);
                         mkAcceptTry false (inr clientConn)]) C7_world)
         = [EvAccept 0; EvLog Info "AcceptTCP()"; EvAccept 0] ++ t.
Proof.
  assert (Hd : 0%nat ∉ done C7_world) by (cbn; set_solver).
  split.
  - destruct (C7_accept_errors C7_world 0 _ C7_closed [] eq_refl Hd) as [H _].
    exact (H eq_refl).
  - destruct (C7_accept_errors C7_world 0 _ C7_err
                [mkAcceptTry false (inr clientConn)] eq_refl Hd) as [_ H].
    destruct (H eq_refl) as (H1 & _ & H3).
    destruct (H3 (inr clientConn) []) as [t Ht].
    exists t. unfold exec in *. rewrite H1, Ht. reflexivity.
Defined.

(** C7, as stated, fails: after an accept error that is not the closed
    listener (it is logged), the context is found cancelled at the top of
    the loop and the loop returns; the connection waiting in the queue is
    not accepted, and [AcceptTCP] was called once. *)
Lemma C7_cancelled_after_error_no_retry :
  Contains (Error C7_err) closedListener = false
  ∧ frontend_listenForNewConn 0 C7_accepts C7_world
    = (Returned,
       set_done (λ _, {[0%nat]})
         (set_trace (λ _, [EvAccept 0; EvLog Info "AcceptTCP()"]) C7_world)).
Proof. split; vm_compute; reflexivity. Qed.

(** ** One accepted connection *)

Lemma lookup_snoc2_0 {A} (h : list A) a b : (h ++ [a; b]) !! length h = Some a.
Proof. by apply list_lookup_middle. Qed.

Lemma lookup_snoc2_1 {A} (h : list A) a b :
  (h ++ [a; b]) !! S (length h) = Some b.
Proof.
  rewrite (cons_middle a h [b]), app_assoc.
  apply list_lookup_middle. rewrite length_app. cbn. lia.
Qed.

Lemma insert_snoc2_0 {A} (h : list A) a b x :
  <[length h := x]> (h ++ [a; b]) = h ++ [x; b].
Proof. rewrite insert_app_r_alt by lia. by rewrite Nat.sub_diag. Qed.

Lemma insert_snoc2_1 {A} (h : list A) a b x :
  <[S (length h) := x]> (h ++ [a; b]) = h ++ [a; x].
Proof.
  rewrite insert_app_r_alt by lia.
  by replace (S (length h) - length h)%nat with 1%nat by lia.
Qed.

Lemma insert_snoc1 {A} (h : list A) a x :
  <[length h := x]> (h ++ [a]) = h ++ [x].
Proof. rewrite insert_app_r_alt by lia. by rewrite Nat.sub_diag. Qed.

Lemma manager_addConn_backend w p c i :
  heap w !! p = Some c → manager c = ManagerBackend i →
  manager_addConn p w = backend_addConn i p w.
Proof. intros Hp Hm. unfold manager_addConn. wsimpl. by rewrite Hp; cbn; rewrite Hm. Qed.

Lemma manager_addConn_frontend w p c j :
  heap w !! p = Some c → manager c = ManagerFrontend j →
  manager_addConn p w = frontend_addConn j p w.
Proof. intros Hp Hm. unfold manager_addConn. wsimpl. by rewrite Hp; cbn; rewrite Hm. Qed.

Lemma manager_delConn_backend w p c i :
  heap w !! p = Some c → manager c = ManagerBackend i →
  manager_delConn p w = backend_delConn i p w.
Proof. intros Hp Hm. unfold manager_delConn. wsimpl. by rewrite Hp; cbn; rewrite Hm. Qed.

Lemma manager_delConn_frontend w p c j :
  heap w !! p = Some c → manager c = ManagerFrontend j →
  manager_delConn p w = frontend_delConn j p w.
Proof. intros Hp Hm. unfold manager_delConn. wsimpl. by rewrite Hp; cbn; rewrite Hm. Qed.

Lemma createRemoteConnection_ok w i b rnc :
  selectBackend (backends w) = Some i → backends w !! i = Some b →
  application_createRemoteConnection (inr rnc) w =
    (inr (length (heap w)),
     mkWorld (done w)
       (heap w ++ [mkConn rnc (Sysfd rnc) false (ManagerBackend i)])
       (onces w) (backends w) (frontends w)
       (trace w ++ [EvDial (addr b); EvLog Debug "new remote connection"])).
Proof.
  intros Hsel Hi. unfold application_createRemoteConnection. rewrite Hsel.
  unfold backend_createConn, DialContext, fdFromConn. wsimpl. rewrite Hi. cbn.
  by rewrite <- app_assoc.
Qed.

(** The world that [handleNewConnection] leaves when the dial succeeds:
    two new handles, each in the map of its manager, each already closed
    if the context of its manager was cancelled, and a fresh latch. *)
Lemma handleNewConnection_ok w j fr i b nc rnc :
  frontends w !! j = Some fr →
  selectBackend (backends w) = Some i → backends w !! i = Some b →
  let p := length (heap w) in
  let db := bool_decide (b_ctx b ∈ done w) in
  let df := bool_decide (f_ctx fr ∈ done w) in
  frontend_handleNewConnection j nc (inr rnc) w =
    (Some (mkSession (S p) p (length (onces w))),
     mkWorld (done w)
       (heap w ++ [mkConn rnc (Sysfd rnc) db (ManagerBackend i);
                   mkConn nc (Sysfd nc) df (ManagerFrontend j)])
       (onces w ++ [false])
       (<[i := set_b_connections (insert (Sysfd rnc) p) b]> (backends w))
       (<[j := set_f_connections (insert (Sysfd nc) (S p)) fr]> (frontends w))
       (trace w ++ [EvDial (addr b); EvLog Debug "new remote connection"]
          ++ (if db then [EvNetClose (sock rnc)] else [])
          ++ (if df then [EvNetClose (sock nc)] else [])
          ++ [EvGo (GoRelay p (S p)); EvGo (GoRelay (S p) p)])).
Proof.
  intros Hj Hsel Hi p db df. unfold frontend_handleNewConnection.
  unfold bind at 1. rewrite (createRemoteConnection_ok w i b rnc Hsel Hi).
  fold p.
  set (cR := mkConn rnc (Sysfd rnc) false (ManagerBackend i)).
  set (wA := mkWorld _ _ _ _ _ _).
  assert (HpA : heap wA !! p = Some cR).
  { subst wA p. cbn. by apply list_lookup_middle. }
  unfold bind at 1.
  rewrite (manager_addConn_backend wA p cR i HpA eq_refl).
  rewrite (backend_addConn_spec wA i p b cR) by done.
  subst wA. cbn [done heap onces backends frontends trace]. fold db.
  assert (Hh : (if db then <[p := set_closed true cR]> (heap w ++ [cR])
                else heap w ++ [cR])
               = heap w ++ [mkConn rnc (Sysfd rnc) db (ManagerBackend i)]).
  { subst p cR. destruct db; [apply insert_snoc1|done]. }
  rewrite Hh. clear Hh HpA. subst cR. cbn [fd closed netConn negb].
  set (cR := mkConn rnc (Sysfd rnc) db (ManagerBackend i)).
  unfold newConn, fdFromConn, set_heap. unfold bind at 1.
  cbn [done heap onces backends frontends trace].
  set (cF := mkConn nc (Sysfd nc) false (ManagerFrontend j)).
  set (wB := mkWorld _ _ _ _ _ _).
  assert (Hq : length (heap w ++ [cR]) = S p) by (rewrite length_app; cbn; lia).
  rewrite Hq.
  assert (HqB : heap wB !! S p = Some cF).
  { subst wB p. cbn [heap]. rewrite <- app_assoc. apply lookup_snoc2_1. }
  unfold bind at 1.
  rewrite (manager_addConn_frontend wB (S p) cF j HqB eq_refl).
  rewrite (frontend_addConn_spec wB j (S p) fr cF) by done.
  subst wB. cbn [done heap onces backends frontends trace]. fold df.
  assert (Hh : (if df then <[S p := set_closed true cF]> ((heap w ++ [cR]) ++ [cF])
                else (heap w ++ [cR]) ++ [cF])
               = heap w ++ [cR; mkConn nc (Sysfd nc) df (ManagerFrontend j)]).
  { subst p cF. rewrite <- app_assoc. cbn [app].
    destruct df; [apply insert_snoc2_1|done]. }
  rewrite Hh. clear Hh HqB. subst cF. cbn [fd closed netConn negb].
  wsimpl. f_equal. f_equal.
  rewrite !andb_true_r. by rewrite <- !app_assoc.
Qed.

(** What [closeAll] does to a pair of handles, one managed by frontend
    [j] and one by backend [i]. *)
Lemma closeAll_spec w q p o cF cR j i fJ bI :
  heap w !! q = Some cF → heap w !! p = Some cR → p ≠ q →
  manager cF = ManagerFrontend j → manager cR = ManagerBackend i →
  frontends w !! j = Some fJ → backends w !! i = Some bI →
  closeAll (mkSession q p o) w =
    (tt,
     mkWorld (done w)
       (<[p := set_closed true cR]> (<[q := set_closed true cF]> (heap w)))
       (onces w)
       (if bool_decide (b_ctx bI ∈ done w) then backends w
        else <[i := set_b_connections (delete (fd cR)) bI]> (backends w))
       (if bool_decide (f_ctx fJ ∈ done w) then frontends w
        else <[j := set_f_connections (delete (fd cF)) fJ]> (frontends w))
       (trace w
          ++ [EvLog Debug (closingMsg (remoteAddr (netConn cF))
                                      (localAddr (netConn cF)))]
          ++ (if closed cF then [] else [EvNetClose (sock (netConn cF))])
          ++ [EvLog Debug (closingMsg (localAddr (netConn cR))
                                      (remoteAddr (netConn cR)))]
          ++ (if closed cR then [] else [EvNetClose (sock (netConn cR))]))).
Proof.
  intros Hq Hp Hne HmF HmR Hj Hi.
  unfold closeAll, addrs. cbn [s_conn s_rConn].
  unfold load at 1, log at 1, emit at 1, ret at 1, set_trace.
  unfold bind at 1. unfold bind at 1. rewrite Hq. cbn [from_option fst snd].
  unfold bind at 1. cbn [done heap onces backends frontends trace].
  set (w1 := mkWorld _ _ _ _ _ _).
  unfold bind at 1. rewrite (Conn_Close_spec w1 q cF) by done.
  subst w1. cbn [done heap onces backends frontends trace].
  set (w2 := mkWorld _ _ _ _ _ _).
  assert (Hp2 : heap w2 !! p = Some cR).
  { subst w2. cbn [heap]. by rewrite list_lookup_insert_ne. }
  unfold load at 1, log at 1, emit at 1, ret at 1, set_trace.
  unfold bind at 1. unfold bind at 1. rewrite Hp2. cbn [from_option fst snd].
  unfold bind at 1.
  subst w2. cbn [done heap onces backends frontends trace].
  set (w3 := mkWorld _ _ _ _ _ _).
  assert (Hp3 : heap w3 !! p = Some cR) by exact Hp2.
  unfold bind at 1. rewrite (Conn_Close_spec w3 p cR Hp3).
  subst w3. cbn [done heap onces backends frontends trace].
  set (w4 := mkWorld _ _ _ _ _ _).
  assert (Hq4 : heap w4 !! q = Some (set_closed true cF)).
  { subst w4. cbn [heap]. rewrite list_lookup_insert_ne by done.
    apply list_lookup_insert_eq. by eapply lookup_lt_Some. }
  assert (Hp4 : heap w4 !! p = Some (set_closed true cR)).
  { subst w4. cbn [heap]. apply list_lookup_insert_eq.
    rewrite length_insert. by eapply lookup_lt_Some. }
  unfold bind at 1.
  rewrite (manager_delConn_frontend w4 q _ j Hq4 HmF).
  rewrite (frontend_delConn_spec w4 j q fJ _ Hj Hq4).
  set (w5 := if bool_decide (f_ctx fJ ∈ done w4) then _ else _).
  assert (Hp5 : heap w5 !! p = Some (set_closed true cR)).
  { subst w5. by destruct (bool_decide (f_ctx fJ ∈ done w4)). }
  assert (Hi5 : backends w5 !! i = Some bI).
  { subst w5. by destruct (bool_decide (f_ctx fJ ∈ done w4)). }
  rewrite (manager_delConn_backend w5 p _ i Hp5 HmR).
  rewrite (backend_delConn_spec w5 i p bI _ Hi5 Hp5).
  f_equal. subst w5 w4. cbn [done heap onces backends frontends trace fd set_closed].
  destruct (bool_decide (f_ctx fJ ∈ done w)); wsimpl;
    destruct (bool_decide (b_ctx bI ∈ done w)); wsimpl;
    by rewrite <- !app_assoc.
Qed.

Lemma copyLoop_spec copies w :
  copyLoop copies w
  = (if copyEnds copies then Returned else Running,
     set_trace (λ t, t ++ copyLog copies) w).
Proof.
  revert w. induction copies as [|[n [e|]] copies IH]; intros w; cbn.
  - by rewrite set_trace_nil.
  - done.
  - destruct (n =? 0); cbn; [by rewrite set_trace_nil|apply IH].
Qed.

Lemma relay_first s copies w :
  onces w !! s_closeOnce s = Some false → copyEnds copies = true →
  relay s copies w
  = (Returned,
     set_onces (insert (s_closeOnce s) true)
       (exec (closeAll s) (set_trace (λ t, t ++ copyLog copies) w))).
Proof.
  intros Ho He. unfold relay, bind at 1. rewrite copyLoop_spec, He.
  unfold Once_Do, bind at 1. cbn [onces set_trace]. rewrite Ho.
  unfold exec, bind. by destruct (closeAll s _) as [[] w'].
Qed.

Lemma relay_later s copies w :
  onces w !! s_closeOnce s = Some true → copyEnds copies = true →
  relay s copies w = (Returned, set_trace (λ t, t ++ copyLog copies) w).
Proof.
  intros Ho He. unfold relay, bind at 1. rewrite copyLoop_spec, He.
  unfold Once_Do, bind at 1. cbn [onces set_trace]. by rewrite Ho.
Qed.

Lemma relays_later s cs w :
  onces w !! s_closeOnce s = Some true →
  Forall (λ c, copyEnds c = true) cs →
  relays s cs w = (tt, set_trace (λ t, t ++ (cs ≫= copyLog)) w).
Proof.
  intros Ho Hcs. revert w Ho.
  induction Hcs as [|c cs Hc _ IH]; intros w Ho; cbn [relays].
  - cbn. by rewrite set_trace_nil.
  - unfold bind at 1. rewrite (relay_later s c w Ho Hc).
    rewrite IH by done. by rewrite set_trace_app.
Qed.

Section pair.
Variables (w : world) (j i : nat) (fr : frontend) (b : backend).
Variables (nc rnc : NetConn) (mid : gset nat).
Hypothesis Hj : frontends w !! j = Some fr.
Hypothesis Hsel : selectBackend (backends w) = Some i.
Hypothesis Hi : backends w !! i = Some b.

Let p := length (heap w).
Let db := bool_decide (b_ctx b ∈ done w).
Let df := bool_decide (f_ctx fr ∈ done w).
Let cR := mkConn rnc (Sysfd rnc) true (ManagerBackend i).
Let cF := mkConn nc (Sysfd nc) true (ManagerFrontend j).
Let bI := set_b_connections (insert (Sysfd rnc) p) b.
Let fJ := set_f_connections (insert (Sysfd nc) (S p)) fr.

(** The world at the end of [pairLife] when the first relay goroutine
    leaves its loop and the others after it do too. *)
Lemma pairLife_spec c1 rest :
  copyEnds c1 = true → Forall (λ c, copyEnds c = true) rest →
  pairLife j nc (inr rnc) mid (c1 :: rest) w =
    (Some (mkSession (S p) p (length (onces w))),
     mkWorld (mid ∪ done w)
       (heap w ++ [cR; cF])
       (onces w ++ [true])
       (if bool_decide (b_ctx b ∈ mid ∪ done w)
        then <[i := bI]> (backends w)
        else <[i := set_b_connections (delete (Sysfd rnc)) bI]>
               (<[i := bI]> (backends w)))
       (if bool_decide (f_ctx fr ∈ mid ∪ done w)
        then <[j := fJ]> (frontends w)
        else <[j := set_f_connections (delete (Sysfd nc)) fJ]>
               (<[j := fJ]> (frontends w)))
       (trace w ++ [EvDial (addr b); EvLog Debug "new remote connection"]
          ++ (if db then [EvNetClose (sock rnc)] else [])
          ++ (if df then [EvNetClose (sock nc)] else [])
          ++ [EvGo (GoRelay p (S p)); EvGo (GoRelay (S p) p)]
          ++ copyLog c1
          ++ [EvLog Debug (closingMsg (remoteAddr nc) (localAddr nc))]
          ++ (if df then [] else [EvNetClose (sock nc)])
          ++ [EvLog Debug (closingMsg (localAddr rnc) (remoteAddr rnc))]
          ++ (if db then [] else [EvNetClose (sock rnc)])
          ++ (rest ≫= copyLog))).
Proof.
  intros Hc1 Hrest. unfold pairLife, bind at 1.
  rewrite (handleNewConnection_ok w j fr i b nc rnc Hj Hsel Hi).
  fold p db df. unfold cancelAll, set_done. unfold bind at 1.
  cbn [done heap onces backends frontends trace relays].
  set (s := mkSession (S p) p (length (onces w))).
  set (w2 := mkWorld _ _ _ _ _ _).
  assert (Ho : onces w2 !! s_closeOnce s = Some false).
  { subst w2 s. cbn. by apply list_lookup_middle. }
  unfold bind at 1. unfold bind at 1. rewrite (relay_first s c1 w2 Ho Hc1).
  set (w3 := set_trace _ w2).
  assert (Hq3 : heap w3 !! S p = Some (mkConn nc (Sysfd nc) df (ManagerFrontend j))).
  { subst w3 w2 p. cbn. apply lookup_snoc2_1. }
  assert (Hp3 : heap w3 !! p = Some (mkConn rnc (Sysfd rnc) db (ManagerBackend i))).
  { subst w3 w2 p. cbn. apply lookup_snoc2_0. }
  assert (Hj3 : frontends w3 !! j = Some fJ).
  { subst w3 w2. cbn. apply list_lookup_insert_eq. by eapply lookup_lt_Some. }
  assert (Hi3 : backends w3 !! i = Some bI).
  { subst w3 w2. cbn. apply list_lookup_insert_eq. by eapply lookup_lt_Some. }
  unfold exec. subst s.
  rewrite (closeAll_spec w3 (S p) p _ _ _ j i fJ bI Hq3 Hp3) by (done || lia).
  subst w3 w2. unfold set_onces, set_trace.
  cbn [done heap onces backends frontends trace snd
       s_closeOnce fd netConn closed b_ctx f_ctx bI fJ set_b_connections
       set_f_connections].
  set (w4 := mkWorld _ _ _ _ _ _).
  assert (Ho4 : onces w4 !! length (onces w) = Some true).
  { subst w4. cbn [onces].
    rewrite insert_snoc1. by apply list_lookup_middle. }
  pose proof (relays_later (mkSession (S p) p (length (onces w))) rest w4 Ho4 Hrest)
    as Hl.
  rewrite Hl. f_equal. subst w4. unfold set_trace, set_onces.
  cbn [done heap onces backends frontends trace].
  subst p. rewrite insert_snoc2_1, insert_snoc2_0, insert_snoc1.
  f_equal. rewrite <- !app_assoc. reflexivity.
Qed.
End pair.

Lemma netCloses_cons s e t :
  netCloses s (e :: t)
  = ((if decide (e = EvNetClose s) then 1 else 0) + netCloses s t)%nat.
Proof. unfold netCloses. rewrite filter_cons. by case_decide. Qed.

Lemma netCloses_nil s : netCloses s [] = 0%nat.
Proof. reflexivity. Qed.

Lemma netCloses_copyLog s c : netCloses s (copyLog c) = 0%nat.
Proof.
  induction c as [|[n [e|]] c IH]; cbn [copyLog]; [done|done|].
  by destruct (n =? 0).
Qed.

Ltac count_closes :=
  cbn [mbind list_bind]; rewrite ?app_nil_r;
  rewrite ?netCloses_app, ?netCloses_copyLog;
  repeat rewrite netCloses_cons; rewrite ?netCloses_nil;
  repeat first [ rewrite decide_True by reflexivity
               | rewrite decide_False by congruence ];
  lia.

(** C2, as amended: for an accepted connection whose dial succeeded,
    once both relay goroutines have left their copy loops, whether or not
    contexts were cancelled before or meanwhile: both handles are closed
    and each socket was closed once; the latch is set and [closeAll] ran
    for the first goroutine only, the second adding nothing but the log
    of its own copy loop; and if the contexts of the frontend and of the
    chosen backend are not cancelled by then, neither handle is in the
    map of any backend or frontend. *)
Theorem C2_pairwise_teardown (w : world) (j i : nat) (fr : frontend)
    (b : backend) (nc rnc : NetConn) (mid : gset nat)
    (c1 c2 : list (Z * option error)) :
  frontends w !! j = Some fr →
  selectBackend (backends w) = Some i → backends w !! i = Some b →
  tracksHeap w → sock nc ≠ sock rnc →
  copyEnds c1 = true → copyEnds c2 = true →
  let conn := S (length (heap w)) in
  let rConn := length (heap w) in
  let life := pairLife j nc (inr rnc) mid in
  let w' := exec (life [c1; c2]) w in
  eval (life [c1; c2]) w = Some (mkSession conn rConn (length (onces w)))
  ∧ heap w' !! conn = Some (mkConn nc (Sysfd nc) true (ManagerFrontend j))
  ∧ heap w' !! rConn = Some (mkConn rnc (Sysfd rnc) true (ManagerBackend i))
  ∧ netCloses (sock nc) (trace w') = S (netCloses (sock nc) (trace w))
  ∧ netCloses (sock rnc) (trace w') = S (netCloses (sock rnc) (trace w))
  ∧ onces w' !! length (onces w) = Some true
  ∧ w' = set_trace (λ t, t ++ copyLog c2) (exec (life [c1]) w)
  ∧ (f_ctx fr ∉ mid ∪ done w → b_ctx b ∉ mid ∪ done w →
     untracked w' conn ∧ untracked w' rConn).
Proof.
  intros Hj Hsel Hi Hwf Hne Hc1 Hc2 conn rConn life w'.
  subst w' life. unfold eval, exec.
  rewrite (pairLife_spec w j i fr b nc rnc mid Hj Hsel Hi c1 [c2] Hc1)
    by (by repeat constructor).
  rewrite (pairLife_spec w j i fr b nc rnc mid Hj Hsel Hi c1 [] Hc1)
    by constructor.
  cbn [fst snd done heap onces backends frontends trace].
  split; [done|]. split; [apply lookup_snoc2_1|]. split; [apply lookup_snoc2_0|].
  split.
  { destruct (bool_decide (b_ctx b ∈ done w)),
             (bool_decide (f_ctx fr ∈ done w)); count_closes. }
  split.
  { destruct (bool_decide (b_ctx b ∈ done w)),
             (bool_decide (f_ctx fr ∈ done w)); count_closes. }
  split; [by apply list_lookup_middle|].
  split.
  { unfold set_trace.
    cbn [done heap onces backends frontends trace mbind list_bind].
    f_equal. rewrite !app_nil_r. by rewrite <- !app_assoc. }
  intros Hf Hb.
  rewrite (bool_decide_eq_false_2 _ Hf), (bool_decide_eq_false_2 _ Hb).
  assert (Hold : ∀ x, (length (heap w) ≤ x)%nat →
            untracked
              (mkWorld (mid ∪ done w)
                 (heap w ++ [mkConn rnc (Sysfd rnc) true (ManagerBackend i);
                             mkConn nc (Sysfd nc) true (ManagerFrontend j)])
                 (onces w ++ [true])
                 (<[i := set_b_connections (delete (Sysfd rnc))
                           (set_b_connections
                              (insert (Sysfd rnc) (length (heap w))) b)]>
                    (<[i := set_b_connections
                              (insert (Sysfd rnc) (length (heap w))) b]>
                       (backends w)))
                 (<[j := set_f_connections (delete (Sysfd nc))
                           (set_f_connections
                              (insert (Sysfd nc) (S (length (heap w)))) fr)]>
                    (<[j := set_f_connections
                              (insert (Sysfd nc) (S (length (heap w)))) fr]>
                       (frontends w)))
                 (trace (pairLife j nc (inr rnc) mid [c1; c2] w).2)) x).
  { intros x Hx m k. unfold inBackendMap, inFrontendMap.
    cbn [backends frontends]. rewrite !list_insert_insert_eq. split.
    - intros (b' & Hm & Hk).
      apply list_lookup_insert_Some in Hm as [(<- & <- & _)|[Hmi Hm]].
      + cbn in Hk. apply lookup_delete_Some in Hk as [Hk1 Hk].
        rewrite lookup_insert_ne in Hk by done.
        assert (x < length (heap w))%nat; [|lia].
        apply (Hwf i k x). left. by exists b.
      + assert (x < length (heap w))%nat; [|lia].
        apply (Hwf m k x). left. by exists b'.
    - intros (f' & Hm & Hk).
      apply list_lookup_insert_Some in Hm as [(<- & <- & _)|[Hmi Hm]].
      + cbn in Hk. apply lookup_delete_Some in Hk as [Hk1 Hk].
        rewrite lookup_insert_ne in Hk by done.
        assert (x < length (heap w))%nat; [|lia].
        apply (Hwf j k x). right. by exists fr.
      + assert (x < length (heap w))%nat; [|lia].
        apply (Hwf m k x). right. by exists f'. }
  rewrite (pairLife_spec w j i fr b nc rnc mid Hj Hsel Hi c1 [c2] Hc1) in Hold
    by (by repeat constructor).
  cbn [snd trace] in Hold.
  split; apply Hold; subst conn rConn; lia.
Qed.

Lemma C2_pairwise_teardown_witness :
  let w' := exec (pairLife 0 C2_client (inr C2_upstream) ∅ [C2_eof; C2_reset])
              C2_world in
  netCloses 41 (trace w') = 1%nat ∧ netCloses 42 (trace w') = 1%nat
  ∧ untracked w' 1 ∧ untracked w' 0.
Proof.
  assert (Hsel : selectBackend (backends C2_world) = Some 0%nat) by reflexivity.
  assert (Hwf : tracksHeap C2_world).
  { intros m k p [(b & Hm & Hk)|(f & Hm & Hk)].
    - destruct m as [|m]; [|by destruct m]. cbn in Hm.
      injection Hm as <-. cbn in Hk. by rewrite lookup_empty in Hk.
    - destruct m as [|m]; [|by destruct m]. cbn in Hm.
      injection Hm as <-. cbn in Hk. by rewrite lookup_empty in Hk. }
  assert (Hne : sock C2_client ≠ sock C2_upstream) by (cbn; lia).
  assert (Hf : 0%nat ∉ (∅ : gset nat) ∪ done C2_world).
  { cbn. rewrite (left_id_L ∅ (∪)). apply not_elem_of_empty. }
  destruct (C2_pairwise_teardown C2_world 0 0 _ _ C2_client C2_upstream ∅
              C2_eof C2_reset eq_refl Hsel eq_refl Hwf Hne eq_refl eq_refl)
    as (_ & _ & _ & Hn1 & Hn2 & _ & _ & Hun).
  destruct (Hun Hf Hf) as [Hu1 Hu0].
  intros w'. split; [exact Hn1|]. split; [exact Hn2|].
  split; [exact Hu1|exact Hu0].
Defined.

(** C2, as stated, fails: the context is cancelled while the relays copy
    (the shutdown); both relay goroutines leave their loops, [closeAll]
    runs and closes each socket once, and [delConn] returns at once: the
    client handle is still in the map of the frontend and the upstream
    handle in the map of the backend. *)
Lemma C2_cancelled_handles_stay_registered :
  eval C2_shutdown C2_world = Some (mkSession 1 0 0)
  ∧ netCloses 41 (trace (exec C2_shutdown C2_world)) = 1%nat
  ∧ netCloses 42 (trace (exec C2_shutdown C2_world)) = 1%nat
  ∧ inFrontendMap (exec C2_shutdown C2_world) 0 8 1
  ∧ inBackendMap (exec C2_shutdown C2_world) 0 9 0
  ∧ ¬ untracked (exec C2_shutdown C2_world) 1
  ∧ ¬ untracked (exec C2_shutdown C2_world) 0.
Proof.
  set (w' := exec C2_shutdown C2_world).
  assert (HF : inFrontendMap w' 0 8 1).
  { eexists. split; vm_compute; reflexivity. }
  assert (HB : inBackendMap w' 0 9 0).
  { eexists. split; vm_compute; reflexivity. }
  split; [reflexivity|]. split; [reflexivity|]. split; [reflexivity|].
  split; [exact HF|]. split; [exact HB|]. split.
  - intros H. by destruct (H 0%nat 8) as [_ Hn].
  - intros H. by destruct (H 0%nat 9) as [Hn _].
Qed.

(** * Further properties *)

(** ** The health flag *)

Lemma setActive_effect (w : world) (i : nat) (b : backend) (t : bool) :
  backends w !! i = Some b →
  exec (backend_setActive i t) w
  = (if bool_decide (active b = t) then w
     else set_trace (λ tr, tr ++ [EvLog Info "changed active status"])
            (set_backends (insert i (set_active t b)) w)).
Proof.
  intros Hi. unfold exec, backend_setActive. wsimpl. rewrite Hi.
  destruct (active b) eqn:Ha, t; cbn [negb];
    repeat case_bool_decide; try congruence; wsimpl; rewrite ?Hi; done.
Qed.

(** [setActive(t)] leaves the flag at [t]; it writes its log line when
    the flag was not [t] before and then only, and touches nothing else;
    a second call with the same value changes nothing. *)
Theorem setActive_logs_changes (w : world) (i : nat) (b : backend) (t : bool) :
  backends w !! i = Some b →
  let w' := exec (backend_setActive i t) w in
  w' = (if bool_decide (active b = t) then w
        else set_trace (λ tr, tr ++ [EvLog Info "changed active status"])
               (set_backends (insert i (set_active t b)) w))
  ∧ active <$> backends w' !! i = Some t
  ∧ exec (backend_setActive i t) w' = w'.
Proof.
  intros Hi w'.
  assert (H2 : active <$> backends w' !! i = Some t)
    by (by apply (backend_setActive_spec w i b t)).
  split; [by apply setActive_effect|]. split; [done|].
  destruct (backends w' !! i) as [b'|] eqn:Hi'; [|done].
  cbn in H2. injection H2 as H2.
  rewrite (setActive_effect w' i b' t Hi').
  by rewrite bool_decide_true.
Qed.

Lemma setActive_logs_changes_witness :
  trace (exec (backend_setActive 0 true) X_world)
  = [EvLog Info "changed active status"]
  ∧ trace (exec (backend_setActive 0 false) X_world) = [].
Proof.
  destruct (setActive_logs_changes X_world 0 _ true eq_refl) as (H1 & _).
  destruct (setActive_logs_changes X_world 0 _ false eq_refl) as (H2 & _).
  rewrite H1, H2. split; reflexivity.
Defined.

(** ** The connections map *)

Lemma inBackendMap_entry w i k p :
  inBackendMap w i k p ↔ backendEntry w i k = Some p.
Proof.
  unfold inBackendMap, backendEntry. split.
  - intros (b & -> & Hk). done.
  - destruct (backends w !! i) as [b|]; [|done]. cbn. by exists b.
Qed.

(** With the context live, [addConn] puts the handle under its
    descriptor and leaves the other entries, the handle (it stays as open
    as it was) and the trace alone; [getConnCount] is one more than
    before when the descriptor was not a key, and the same when it was. *)
Theorem addConn_live_registers (w : world) (i p : nat) (b : backend)
    (c : Conn) :
  backends w !! i = Some b → heap w !! p = Some c → b_ctx b ∉ done w →
  let w' := exec (backend_addConn i p) w in
  backendEntry w' i (fd c) = Some p
  ∧ (∀ k, k ≠ fd c → backendEntry w' i k = backendEntry w i k)
  ∧ heap w' = heap w ∧ trace w' = trace w
  ∧ eval (backend_getConnCount i) w'
    = match backendEntry w i (fd c) with
      | Some _ => eval (backend_getConnCount i) w
      | None => S (eval (backend_getConnCount i) w)
      end.
Proof.
  intros Hi Hp Hd w'. subst w'. unfold exec, eval, backendEntry.
  rewrite (backend_addConn_spec w i p b c Hi Hp).
  rewrite (isDone_false _ _ Hd). unfold backend_getConnCount. wsimpl.
  rewrite Hi, app_nil_r.
  rewrite list_lookup_insert_eq by (by eapply lookup_lt_Some). cbn.
  split; [apply lookup_insert_eq|].
  split; [intros k Hk; by apply lookup_insert_ne|].
  split; [done|]. split; [done|].
  unfold connCount. cbn. rewrite map_size_insert.
  by destruct (b_connections b !! fd c).
Qed.

Lemma addConn_live_registers_witness :
  backendEntry (exec (backend_addConn 0 1) X_world) 0 22 = Some 1%nat
  ∧ eval (backend_getConnCount 0) (exec (backend_addConn 0 1) X_world) = 1%nat.
Proof.
  assert (Hd : 0%nat ∉ done X_world) by apply not_elem_of_empty.
  destruct (addConn_live_registers X_world 0 1 _ _ eq_refl eq_refl Hd)
    as (H1 & _ & _ & _ & H2).
  split; [exact H1|]. rewrite H2. reflexivity.
Defined.

(** With the context live, [delConn] of a handle whose descriptor is not
    a key of the map leaves the world as it is. *)
Theorem delConn_missing_key (w : world) (i p : nat) (b : backend) (c : Conn) :
  backends w !! i = Some b → heap w !! p = Some c → b_ctx b ∉ done w →
  b_connections b !! fd c = None →
  backend_delConn i p w = (tt, w).
Proof.
  intros Hi Hp Hd Hk. rewrite (backend_delConn_spec w i p b c Hi Hp).
  rewrite (isDone_false _ _ Hd). f_equal. unfold set_backends.
  replace (set_b_connections (delete (fd c)) b) with b.
  - rewrite list_insert_id by done. by destruct w.
  - unfold set_b_connections. rewrite delete_id by done. by destruct b.
Qed.

Lemma delConn_missing_key_witness :
  backend_delConn 0 0 X_unregistered = (tt, X_unregistered).
Proof.
  apply (delConn_missing_key X_unregistered 0 0 (sampleBackend true ∅)
           (mkConn upstreamConn 22 false (ManagerBackend 0)) eq_refl eq_refl);
    [apply not_elem_of_empty|reflexivity].
Defined.

(** With the context live, [addConn] and then [delConn] of a handle
    whose descriptor was not a key bring back the world as it was. *)
Theorem addConn_delConn_round_trip (w : world) (i p : nat) (b : backend)
    (c : Conn) :
  backends w !! i = Some b → heap w !! p = Some c → b_ctx b ∉ done w →
  b_connections b !! fd c = None →
  exec (backend_delConn i p) (exec (backend_addConn i p) w) = w.
Proof.
  intros Hi Hp Hd Hk. unfold exec at 2.
  rewrite (backend_addConn_spec w i p b c Hi Hp), (isDone_false _ _ Hd).
  cbn [snd andb]. rewrite app_nil_r.
  set (w1 := mkWorld _ _ _ _ _ _).
  assert (Hi1 : backends w1 !! i
                = Some (set_b_connections (insert (fd c) p) b)).
  { subst w1. cbn. apply list_lookup_insert_eq. by eapply lookup_lt_Some. }
  unfold exec. rewrite (backend_delConn_spec w1 i p _ c Hi1 Hp).
  cbn [b_ctx set_b_connections]. subst w1. cbn [done snd].
  rewrite (isDone_false _ _ Hd). unfold set_backends.
  cbn [done heap onces backends frontends trace b_ctx addr dialler active
       b_connections healthcheckInterval].
  rewrite list_insert_insert_eq.
  replace (set_b_connections (delete (fd c)) (set_b_connections <[fd c:=p]> b))
    with b.
  - rewrite list_insert_id by done. by destruct w.
  - unfold set_b_connections. cbn. rewrite delete_insert_id by done.
    by destruct b.
Qed.

Lemma addConn_delConn_round_trip_witness :
  backendEntry (exec (backend_addConn 0 0) X_unregistered) 0 22 = Some 0%nat
  ∧ exec (backend_delConn 0 0) (exec (backend_addConn 0 0) X_unregistered)
    = X_unregistered.
Proof.
  split; [reflexivity|].
  apply (addConn_delConn_round_trip X_unregistered 0 0 (sampleBackend true ∅)
           (mkConn upstreamConn 22 false (ManagerBackend 0)) eq_refl eq_refl);
    [apply not_elem_of_empty|reflexivity].
Defined.

(** ** Shutdown *)

Lemma Conn_Close_dangling w p : heap w !! p = None → Conn_Close p w = (None, w).
Proof. intros Hp. unfold Conn_Close, bind, load. by rewrite Hp. Qed.

Lemma elem_of_tracked (m : gmap Z nat) p :
  p ∈ tracked m ↔ ∃ k, m !! k = Some p.
Proof.
  unfold tracked. rewrite list_elem_of_fmap. split.
  - intros ([k x] & -> & Hin). exists k. by apply elem_of_map_to_list.
  - intros [k Hk]. exists (k, p). split; [done|]. by apply elem_of_map_to_list.
Qed.

(** What the loop over the tracked handles does: the handles of the list
    end closed, the others stay as they are, nothing else in the world
    changes, and the sockets that are closed are those of the handles of
    the list that were open. *)
Lemma closeEach_spec ps w :
  let w' := exec (closeEach ps) w in
  done w' = done w ∧ onces w' = onces w
  ∧ backends w' = backends w ∧ frontends w' = frontends w
  ∧ (∀ p, heap w' !! p
          = (λ c, if bool_decide (p ∈ ps) then set_closed true c else c)
              <$> heap w !! p)
  ∧ ∃ t, trace w' = trace w ++ t
         ∧ ∀ e, e ∈ t ↔ ∃ p c, p ∈ ps ∧ heap w !! p = Some c
                               ∧ closed c = false
                               ∧ e = EvNetClose (sock (netConn c)).
Proof.
  revert w. induction ps as [|p ps IH]; intros w w'; subst w'.
  - cbn. repeat (split; [done|]). split.
    + intros p. destruct (heap w !! p); [|done]. cbn. f_equal.
    + exists []. split; [by rewrite app_nil_r|]. intros e. split.
      * intros He. by apply not_elem_of_nil in He.
      * intros (p & c & Hp & _). by apply not_elem_of_nil in Hp.
  - unfold exec. cbn [closeEach].
    destruct (heap w !! p) as [c|] eqn:Hp.
    + pose (w1 := mkWorld (done w) (<[p := set_closed true c]> (heap w))
                    (onces w) (backends w) (frontends w)
                    (trace w ++ if closed c then []
                                else [EvNetClose (sock (netConn c))])).
      assert (Heq : (Conn_Close p >> closeEach ps) w = closeEach ps w1).
      { unfold bind. by rewrite (Conn_Close_spec w p c Hp). }
      rewrite !Heq.
      destruct (IH w1) as (Hd & Ho & Hb & Hf & Hh & t & Ht & Hin).
      unfold exec in *. split; [by rewrite Hd|]. split; [by rewrite Ho|].
      split; [by rewrite Hb|]. split; [by rewrite Hf|]. split.
      * intros q. rewrite Hh. subst w1. cbn [heap].
        destruct (decide (q = p)) as [->|Hne].
        -- rewrite list_lookup_insert_eq by (by eapply lookup_lt_Some).
           rewrite Hp. cbn. rewrite (bool_decide_true (p ∈ p :: ps)) by by left.
           f_equal. by destruct (bool_decide (p ∈ ps)).
        -- rewrite list_lookup_insert_ne by done.
           destruct (heap w !! q) as [cq|]; [|done]. cbn. f_equal.
           assert (Hiff : q ∈ ps ↔ q ∈ p :: ps).
           { rewrite elem_of_cons. split; [tauto|]. intros [?|?]; [congruence|done]. }
           by rewrite (bool_decide_ext _ _ Hiff).
      * exists ((if closed c then [] else [EvNetClose (sock (netConn c))]) ++ t).
        split; [rewrite Ht; subst w1; cbn [trace]; by rewrite app_assoc|].
        intros e. rewrite elem_of_app, Hin. subst w1. cbn [heap]. split.
        -- intros [He|(q & cq & Hq & Hcq & Hopen & ->)].
           ++ destruct (closed c) eqn:Hc; [by apply not_elem_of_nil in He|].
              apply list_elem_of_singleton in He. subst e.
              exists p, c. split; [by left|done].
           ++ apply list_lookup_insert_Some in Hcq
                as [(<- & <- & _)|[Hne Hcq]]; [done|].
              exists q, cq. split; [by right|done].
        -- intros (q & cq & Hq & Hcq & Hopen & ->).
           destruct (decide (q = p)) as [->|Hne].
           ++ left. rewrite Hp in Hcq. injection Hcq as ->.
              rewrite Hopen. by left.
           ++ right. exists q, cq. apply elem_of_cons in Hq as [?|Hq]; [done|].
              split; [done|]. by rewrite list_lookup_insert_ne.
    + assert (Heq : (Conn_Close p >> closeEach ps) w = closeEach ps w).
      { unfold bind. by rewrite (Conn_Close_dangling w p Hp). }
      rewrite !Heq.
      destruct (IH w) as (Hd & Ho & Hb & Hf & Hh & t & Ht & Hin).
      unfold exec in *. repeat (split; [done|]). split.
      * intros q. rewrite Hh. destruct (heap w !! q) as [cq|] eqn:Hq; [|done].
        cbn. f_equal. assert (q ≠ p) by congruence.
        assert (Hiff : q ∈ ps ↔ q ∈ p :: ps).
        { rewrite elem_of_cons. split; [tauto|]. intros [?|?]; [congruence|done]. }
        by rewrite (bool_decide_ext _ _ Hiff).
      * exists t. split; [done|]. intros e. rewrite Hin. split.
        -- intros (q & cq & Hq & Hrest). exists q, cq. split; [by right|done].
        -- intros (q & cq & Hq & Hcq & Hrest). exists q, cq.
           apply elem_of_cons in Hq as [->|Hq]; [congruence|done].
Qed.

Lemma backend_run_eq w i b :
  backends w !! i = Some b →
  backend_run i true w =
    (Returned,
     exec (closeEach (tracked (b_connections b)))
       (mkWorld ({[b_ctx b]} ∪ done w) (heap w) (onces w) (backends w)
          (frontends w)
          (trace w ++ [EvGo (GoRunHealthcheck i);
                       EvLog Info "closing connections"]))).
Proof.
  intros Hi. unfold backend_run. wsimpl. rewrite Hi. wsimpl. rewrite Hi.
  cbn [from_option]. unfold exec. rewrite <- app_assoc. cbn [app].
  by destruct (closeEach _ _) as [[] w'].
Qed.

Lemma backend_run_untracked w i b p :
  backends w !! i = Some b → (∀ k, b_connections b !! k ≠ Some p) →
  heap (exec (backend_run i true) w) !! p = heap w !! p.
Proof.
  intros Hi Hno. unfold exec. rewrite (backend_run_eq w i b Hi). cbn [snd].
  set (w0 := mkWorld _ _ _ _ _ _).
  destruct (closeEach_spec (tracked (b_connections b)) w0)
    as (_ & _ & _ & _ & Hh & _).
  rewrite Hh. subst w0. cbn [heap].
  destruct (heap w !! p) as [c|]; [|done]. cbn.
  rewrite bool_decide_false; [done|].
  intros [k Hk]%elem_of_tracked. by apply (Hno k).
Qed.

(** [backend.run], once the context is cancelled: it returns; every
    handle of its map ends closed and every other handle is as it was;
    the sockets it closes are those of the handles of the map that were
    still open; the map itself is left as it is. *)
Theorem backend_run_shutdown (w : world) (i : nat) (b : backend) :
  backends w !! i = Some b →
  let w' := exec (backend_run i true) w in
  eval (backend_run i true) w = Returned
  ∧ b_ctx b ∈ done w'
  ∧ backends w' = backends w ∧ frontends w' = frontends w
  ∧ (∀ k p c, b_connections b !! k = Some p → heap w !! p = Some c →
              heap w' !! p = Some (set_closed true c))
  ∧ (∀ p, (∀ k, b_connections b !! k ≠ Some p) → heap w' !! p = heap w !! p)
  ∧ ∃ t, trace w' = trace w ++ [EvGo (GoRunHealthcheck i);
                                EvLog Info "closing connections"] ++ t
         ∧ ∀ e, e ∈ t ↔ ∃ k p c, b_connections b !! k = Some p
                                 ∧ heap w !! p = Some c ∧ closed c = false
                                 ∧ e = EvNetClose (sock (netConn c)).
Proof.
  intros Hi w'. subst w'. unfold eval, exec.
  rewrite (backend_run_eq w i b Hi). cbn [fst snd].
  set (w0 := mkWorld _ _ _ _ _ _).
  destruct (closeEach_spec (tracked (b_connections b)) w0)
    as (Hd & _ & Hb & Hf & Hh & t & Ht & Hin).
  split; [done|].
  split; [rewrite Hd; subst w0; cbn [done]; apply elem_of_union_l; by apply elem_of_singleton|].
  split; [by rewrite Hb|]. split; [by rewrite Hf|]. split; [|split].
  - intros k p c Hk Hp. rewrite Hh. subst w0. cbn [heap]. rewrite Hp. cbn.
    rewrite bool_decide_true; [done|]. apply elem_of_tracked. by exists k.
  - intros p Hno. rewrite Hh. subst w0. cbn [heap].
    destruct (heap w !! p) as [c|]; [|done]. cbn.
    rewrite bool_decide_false; [done|].
    intros [k Hk]%elem_of_tracked. by apply (Hno k).
  - exists t. split; [rewrite Ht; subst w0; cbn [trace]; by rewrite <- app_assoc|].
    intros e. rewrite Hin. subst w0. cbn [heap]. split.
    + intros (p & c & [k Hk]%elem_of_tracked & Hrest). by exists k, p, c.
    + intros (k & p & c & Hk & Hrest). exists p, c.
      split; [apply elem_of_tracked; by exists k|done].
Qed.

Lemma backend_run_shutdown_witness :
  closed <$> heap (exec (backend_run 0 true) X_shared_fd) !! 0%nat = Some true
  ∧ closed <$> heap (exec (backend_run 0 true) X_shared_fd) !! 1%nat = Some false
  ∧ backends (exec (backend_run 0 true) X_shared_fd) = backends X_shared_fd.
Proof.
  destruct (backend_run_shutdown X_shared_fd 0 _ eq_refl)
    as (_ & _ & Hb & _ & Hin & Hout & _).
  split; [|split; [|exact Hb]].
  - rewrite (Hin 22 0%nat _ eq_refl eq_refl). reflexivity.
  - rewrite (Hout 1%nat); [reflexivity|]. intros k Hk. cbn in Hk.
    apply lookup_singleton_Some in Hk as [_ Hk]. discriminate Hk.
Defined.

Lemma frontend_run_eq w j fr errs l rest :
  frontends w !! j = Some fr → f_ctx fr ∉ done w →
  frontend_run j (failedBinds errs ++ mkBindTry false (inr l) :: rest) true w =
    (Returned,
     exec (closeEach (tracked (f_connections fr)))
       (mkWorld ({[f_ctx fr]} ∪ done w) (heap w) (onces w) (backends w)
          (<[j := set_tcpListener (Some l) fr]> (frontends w))
          (trace w ++ retryTrace (laddr fr) errs
             ++ [EvListen (laddr fr); EvGo (GoListenForNewConn j);
                 EvLog Info "closing listener and connections";
                 EvListenerClose (lsock l)]))).
Proof.
  intros Hj Hd. unfold frontend_run. wsimpl. rewrite Hj.
  rewrite bindLoop_retries by done. cbn [bindLoop bind_cancelled listen_result].
  wsimpl. rewrite (isDone_false _ _ Hd). wsimpl. rewrite Hj. wsimpl.
  rewrite list_lookup_insert_eq by (by eapply lookup_lt_Some). wsimpl.
  cbn [tcpListener f_connections set_tcpListener from_option].
  rewrite <- !app_assoc. cbn [app].
  by destruct (closeEach _ _) as [[] w'].
Qed.

(** [frontend.run], bound and then cancelled: it returns; the listener
    is closed before any connection; every handle of its map ends closed
    and every other handle is as it was; the sockets it closes are those
    of the handles of the map that were still open; the map is left as
    it is. *)
Theorem frontend_run_shutdown (w : world) (j : nat) (fr : frontend)
    (errs : list error) (l : TCPListener) (rest : list bind_try) :
  frontends w !! j = Some fr → f_ctx fr ∉ done w →
  let tries := failedBinds errs ++ mkBindTry false (inr l) :: rest in
  let w' := exec (frontend_run j tries true) w in
  eval (frontend_run j tries true) w = Returned
  ∧ f_ctx fr ∈ done w'
  ∧ backends w' = backends w
  ∧ frontends w' = <[j := set_tcpListener (Some l) fr]> (frontends w)
  ∧ (∀ k p c, f_connections fr !! k = Some p → heap w !! p = Some c →
              heap w' !! p = Some (set_closed true c))
  ∧ (∀ p, (∀ k, f_connections fr !! k ≠ Some p) → heap w' !! p = heap w !! p)
  ∧ ∃ t, trace w' = trace w ++ retryTrace (laddr fr) errs
                      ++ [EvListen (laddr fr); EvGo (GoListenForNewConn j);
                          EvLog Info "closing listener and connections";
                          EvListenerClose (lsock l)] ++ t
         ∧ ∀ e, e ∈ t ↔ ∃ k p c, f_connections fr !! k = Some p
                                 ∧ heap w !! p = Some c ∧ closed c = false
                                 ∧ e = EvNetClose (sock (netConn c)).
Proof.
  intros Hj Hlive tries w'. subst w' tries. unfold eval, exec.
  rewrite (frontend_run_eq w j fr errs l rest Hj Hlive). cbn [fst snd].
  set (w0 := mkWorld _ _ _ _ _ _).
  destruct (closeEach_spec (tracked (f_connections fr)) w0)
    as (Hd & _ & Hb & Hf & Hh & t & Ht & Hin).
  split; [done|].
  split; [rewrite Hd; subst w0; cbn [done]; apply elem_of_union_l;
          by apply elem_of_singleton|].
  split; [by rewrite Hb|]. split; [by rewrite Hf|]. split; [|split].
  - intros k p c Hk Hp. rewrite Hh. subst w0. cbn [heap]. rewrite Hp. cbn.
    rewrite bool_decide_true; [done|]. apply elem_of_tracked. by exists k.
  - intros p Hno. rewrite Hh. subst w0. cbn [heap].
    destruct (heap w !! p) as [c|]; [|done]. cbn.
    rewrite bool_decide_false; [done|].
    intros [k Hk]%elem_of_tracked. by apply (Hno k).
  - exists t. split; [rewrite Ht; subst w0; cbn [trace]; by rewrite <- !app_assoc|].
    intros e. rewrite Hin. subst w0. cbn [heap]. split.
    + intros (p & c & [k Hk]%elem_of_tracked & Hrest). by exists k, p, c.
    + intros (k & p & c & Hk & Hrest). exists p, c.
      split; [apply elem_of_tracked; by exists k|done].
Qed.

Lemma frontend_run_shutdown_witness :
  trace (exec (frontend_run 0 [mkBindTry false (inr (mkListener 3))] true)
           X_shared_fd)
  = [EvListen ":7000"; EvGo (GoListenForNewConn 0);
     EvLog Info "closing listener and connections"; EvListenerClose 3;
     EvNetClose 51]
  ∧ closed <$> heap (exec (frontend_run 0 [mkBindTry false (inr (mkListener 3))]
                             true) X_shared_fd) !! 1%nat = Some true.
Proof.
  assert (Hd : 0%nat ∉ done X_shared_fd) by apply not_elem_of_empty.
  destruct (frontend_run_shutdown X_shared_fd 0 _ [] (mkListener 3) []
              eq_refl Hd) as (_ & _ & _ & _ & Hin & _ & _).
  split; [reflexivity|].
  cbn in Hin. rewrite (Hin 23 1%nat _ eq_refl eq_refl). reflexivity.
Defined.

(** A descriptor that is reused while its former handle is being torn
    down: the handle at [p] is closed, a handle at [q] with the same
    descriptor is registered, then [p] is deregistered.  [delConn]
    deletes by descriptor, so it is the entry of [q] that goes: [q] is as
    open as it was and in no entry of the map, and [run] at shutdown
    leaves it so. *)
Theorem delConn_drops_reused_descriptor (w : world) (i p q : nat)
    (b : backend) (c c' : Conn) :
  backends w !! i = Some b → b_ctx b ∉ done w →
  heap w !! p = Some c → heap w !! q = Some c' → p ≠ q → fd c' = fd c →
  (∀ k, b_connections b !! k ≠ Some q) →
  let w1 := exec (closeThenReuse i p q) w in
  (∀ k, backendEntry w1 i k ≠ Some q)
  ∧ heap w1 !! q = Some c'
  ∧ heap (exec (backend_run i true) w1) !! q = Some c'.
Proof.
  intros Hi Hd Hp Hq Hne Hfd Hnew w1.
  assert (Hw1 : w1 = mkWorld (done w) (<[p := set_closed true c]> (heap w))
                       (onces w)
                       (<[i := set_b_connections (λ _, delete (fd c) (b_connections b)) b]>
                          (backends w))
                       (frontends w)
                       (trace w ++ if closed c then []
                                   else [EvNetClose (sock (netConn c))])).
  { subst w1. unfold exec, closeThenReuse. unfold bind at 1.
    rewrite (Conn_Close_spec w p c Hp). set (wa := mkWorld _ _ _ _ _ _).
    assert (Hqa : heap wa !! q = Some c').
    { subst wa. cbn. by rewrite list_lookup_insert_ne. }
    assert (Hpa : heap wa !! p = Some (set_closed true c)).
    { subst wa. cbn. apply list_lookup_insert_eq. by eapply lookup_lt_Some. }
    unfold bind at 1. rewrite (backend_addConn_spec wa i q b c' Hi Hqa).
    subst wa. cbn [done heap onces backends frontends trace].
    rewrite (isDone_false _ _ Hd). cbn [andb]. rewrite app_nil_r.
    set (wb := mkWorld _ _ _ _ _ _).
    assert (Hib : backends wb !! i
                  = Some (set_b_connections (insert (fd c') q) b)).
    { subst wb. cbn. apply list_lookup_insert_eq. by eapply lookup_lt_Some. }
    rewrite (backend_delConn_spec wb i p _ _ Hib Hpa).
    subst wb. cbn [done b_ctx set_b_connections snd].
    rewrite (isDone_false _ _ Hd). unfold set_backends.
    cbn [done heap onces backends frontends trace fd set_closed].
    rewrite list_insert_insert_eq. unfold set_b_connections.
    cbn [b_ctx addr dialler active b_connections healthcheckInterval].
    by rewrite Hfd, delete_insert_eq. }
  assert (Hi1 : backends w1 !! i
                = Some (set_b_connections (λ _, delete (fd c) (b_connections b)) b)).
  { rewrite Hw1. cbn. apply list_lookup_insert_eq. by eapply lookup_lt_Some. }
  assert (Hq1 : heap w1 !! q = Some c').
  { rewrite Hw1. cbn. by rewrite list_lookup_insert_ne. }
  assert (Hno : ∀ k, b_connections
                       (set_b_connections (λ _, delete (fd c) (b_connections b)) b)
                     !! k ≠ Some q).
  { intros k Hk. cbn in Hk. apply lookup_delete_Some in Hk as [_ Hk].
    by apply (Hnew k). }
  split; [|split; [done|]].
  - intros k. unfold backendEntry. rewrite Hi1. cbn [mbind option_bind]. apply Hno.
  - by rewrite (backend_run_untracked w1 i _ q Hi1 Hno).
Qed.

Lemma delConn_drops_reused_descriptor_witness :
  backendEntry (exec (closeThenReuse 0 0 1) X_shared_fd) 0 22 = None
  ∧ closed <$> heap (exec (backend_run 0 true)
                       (exec (closeThenReuse 0 0 1) X_shared_fd)) !! 1%nat
    = Some false.
Proof.
  assert (Hd : 0%nat ∉ done X_shared_fd) by apply not_elem_of_empty.
  destruct (delConn_drops_reused_descriptor X_shared_fd 0 0 1 _ _ _
              eq_refl Hd eq_refl eq_refl) as (_ & _ & Hrun).
  - lia.
  - reflexivity.
  - intros k Hk. cbn in Hk.
    apply lookup_singleton_Some in Hk as [_ Hk]. discriminate Hk.
  - split; [reflexivity|]. by rewrite Hrun.
Defined.

(** ** The health probe *)

Lemma probe_spec w i b r :
  backends w !! i = Some b →
  ∃ t, probe i r w
       = (tt, mkWorld (done w) (heap w) (onces w)
                (<[i := set_active (dialOk r) b]> (backends w)) (frontends w)
                (trace w ++ t))
       ∧ ∀ s, EvNetClose s ∈ t ↔ s ∈ dialSocket r.
Proof.
  intros Hi. rewrite probe_eq. unfold DialContext. wsimpl. rewrite Hi.
  set (w0 := mkWorld _ _ _ _ _ _).
  assert (Hi0 : backends w0 !! i = Some b) by done.
  destruct r as [e|nc]; cbn [dialOk dialSocket].
  - pose proof (setActive_effect w0 i b false Hi0) as H.
    unfold exec in H. destruct (backend_setActive i false w0) as [[] w1].
    cbn in H. subst w1 w0. destruct (bool_decide (active b = false)) eqn:Hb.
    + exists [EvDial (addr b)]. split.
      * f_equal. cbn [from_option]. f_equal.
        replace (set_active false b) with b.
        -- by rewrite list_insert_id.
        -- apply bool_decide_eq_true_1 in Hb. destruct b; cbn in *; by subst.
      * intros s. rewrite list_elem_of_singleton. split; [done|].
        intros Hs. by apply not_elem_of_nil in Hs.
    + exists [EvDial (addr b); EvLog Info "changed active status"]. split.
      * unfold set_trace, set_backends. cbn. by rewrite <- app_assoc.
      * intros s. rewrite !elem_of_cons. split.
        -- intros [?|[?|Hs]]; [done|done|by apply not_elem_of_nil in Hs].
        -- intros Hs. by apply not_elem_of_nil in Hs.
  - wsimpl. set (w1 := mkWorld _ _ _ _ _ _).
    assert (Hi1 : backends w1 !! i = Some b) by done.
    pose proof (setActive_effect w1 i b true Hi1) as H.
    unfold exec in H. destruct (backend_setActive i true w1) as [[] w2].
    cbn in H. subst w2 w1 w0. destruct (bool_decide (active b = true)) eqn:Hb.
    + exists [EvDial (addr b); EvNetClose (sock nc)]. split.
      * f_equal. cbn [from_option done heap onces backends frontends trace].
        replace (set_active true b) with b.
        -- rewrite list_insert_id by done. by rewrite <- app_assoc.
        -- apply bool_decide_eq_true_1 in Hb. destruct b; cbn in *; by subst.
      * intros s. rewrite !elem_of_cons. split.
        -- intros [?|[[= ->]|Hs]]; [done|by left|by apply not_elem_of_nil in Hs].
        -- intros [->|Hs]; [right; by left|by apply not_elem_of_nil in Hs].
    + exists [EvDial (addr b); EvNetClose (sock nc);
              EvLog Info "changed active status"]. split.
      * unfold set_trace, set_backends. cbn. by rewrite <- !app_assoc.
      * intros s. rewrite !elem_of_cons. split.
        -- intros [?|[[= ->]|[?|Hs]]];
             [done|by left|done|by apply not_elem_of_nil in Hs].
        -- intros [->|Hs]; [right; by left|by apply not_elem_of_nil in Hs].
Qed.

Lemma healthcheckLoop_spec i ctx ticks w b r0 :
  backends w !! i = Some (set_active (dialOk r0) b) →
  ∃ t, healthcheckLoop i ctx ticks w
       = (if ctxDoneIn ticks then Returned else Running,
          mkWorld (if ctxDoneIn ticks then {[ctx]} ∪ done w else done w)
            (heap w) (onces w)
            (<[i := set_active (dialOk (lastDial r0 ticks)) b]> (backends w))
            (frontends w) (trace w ++ t))
       ∧ ∀ s, EvNetClose s ∈ t ↔ s ∈ tickSockets ticks.
Proof.
  revert w r0. induction ticks as [|[|r] ticks IH]; intros w r0 Hi;
    cbn [healthcheckLoop ctxDoneIn lastDial tickSockets].
  - exists []. split.
    + unfold ret. f_equal. rewrite list_insert_id by done. rewrite app_nil_r.
      by destruct w.
    + intros s. split; intros Hs; by apply not_elem_of_nil in Hs.
  - exists []. split.
    + wsimpl. f_equal. rewrite list_insert_id by done. by rewrite app_nil_r.
    + intros s. split; intros Hs; by apply not_elem_of_nil in Hs.
  - destruct (probe_spec w i _ r Hi) as (t1 & Hp & Ht1).
    unfold bind. rewrite Hp. set (w1 := mkWorld _ _ _ _ _ _).
    assert (Hi1 : backends w1 !! i = Some (set_active (dialOk r) b)).
    { subst w1. cbn. apply list_lookup_insert_eq. by eapply lookup_lt_Some. }
    destruct (IH w1 r Hi1) as (t2 & Hl & Ht2).
    exists (t1 ++ t2). split.
    + rewrite Hl. subst w1. cbn [done heap onces backends frontends trace].
      by rewrite list_insert_insert_eq, app_assoc.
    + intros s. rewrite !elem_of_app, Ht1, Ht2. done.
Qed.

(** [runHealthcheck] leaves the flag at the outcome of the last dial it
    made; it returns when the context ends its loop and then only; it
    changes no handle, no map, no frontend; and the sockets it closes are
    the ones its own dials opened, every one of them. *)
Theorem runHealthcheck_flag_follows_last_dial (w : world) (i : nat)
    (b : backend) (first : dial_result) (ticks : list tick) :
  backends w !! i = Some b →
  let w' := exec (backend_runHealthcheck i first ticks) w in
  eval (backend_runHealthcheck i first ticks) w
  = (if ctxDoneIn ticks then Returned else Running)
  ∧ backends w' = <[i := set_active (dialOk (lastDial first ticks)) b]> (backends w)
  ∧ heap w' = heap w ∧ frontends w' = frontends w ∧ onces w' = onces w
  ∧ ∃ t, trace w' = trace w ++ t
         ∧ ∀ s, EvNetClose s ∈ t ↔ s ∈ dialSocket first ++ tickSockets ticks.
Proof.
  intros Hi w'. subst w'. unfold eval, exec, backend_runHealthcheck.
  unfold getBackend, bind at 1 3 5 7 9 11. rewrite Hi.
  destruct (probe_spec w i b first Hi) as (t1 & Hp & Ht1).
  unfold bind. rewrite Hp. set (w1 := mkWorld _ _ _ _ _ _).
  assert (Hi1 : backends w1 !! i = Some (set_active (dialOk first) b)).
  { subst w1. cbn. apply list_lookup_insert_eq. by eapply lookup_lt_Some. }
  destruct (healthcheckLoop_spec i (b_ctx b) ticks w1 b first Hi1)
    as (t2 & Hl & Ht2).
  rewrite Hl. subst w1. cbn [fst snd done heap onces backends frontends trace].
  split; [done|]. split; [by rewrite list_insert_insert_eq|].
  repeat (split; [done|]).
  exists (t1 ++ t2). split; [by rewrite app_assoc|].
  intros s. rewrite !elem_of_app, Ht1, Ht2. done.
Qed.

Lemma runHealthcheck_flag_follows_last_dial_witness :
  let ticks := [Tick (inr upstreamConn); Tick (inl C7_err); CtxDone;
                Tick (inr upstreamConn)] in
  eval (backend_runHealthcheck 0 (inr clientConn) ticks) X_shared_fd = Returned
  ∧ active <$> backends (exec (backend_runHealthcheck 0 (inr clientConn) ticks)
                           X_shared_fd) !! 0%nat = Some false
  ∧ heap (exec (backend_runHealthcheck 0 (inr clientConn) ticks) X_shared_fd)
    = heap X_shared_fd.
Proof.
  intros ticks.
  destruct (runHealthcheck_flag_follows_last_dial X_shared_fd 0 _
              (inr clientConn) ticks eq_refl) as (H1 & H2 & H3 & _).
  split; [exact H1|]. split; [|exact H3]. rewrite H2. reflexivity.
Defined.

(** ** Accepting and relaying *)

Lemma acceptLoop_accepted j ctx ncs rest w :
  ctx ∉ done w →
  acceptLoop j ctx (accepted ncs ++ rest) w
  = acceptLoop j ctx rest (set_trace (λ t, t ++ acceptedTrace j ncs) w).
Proof.
  revert w. induction ncs as [|nc ncs IH]; intros w Hd.
  - cbn. by rewrite set_trace_nil.
  - cbn [accepted fmap list_fmap app acceptLoop accept_cancelled accept_result].
    wsimpl. rewrite (isDone_false _ _ Hd). fold (accepted ncs).
    change (mkWorld (done w) (heap w) (onces w) (backends w) (frontends w)
              (((trace w ++ [EvAccept j])
                ++ [EvLog Debug "accepted new connection"])
               ++ [EvGo (GoHandleNewConnection j nc)]))
      with (set_trace (λ t, ((t ++ [EvAccept j])
                             ++ [EvLog Debug "accepted new connection"])
                            ++ [EvGo (GoHandleNewConnection j nc)]) w).
    rewrite IH by done. f_equal. unfold set_trace, acceptedTrace. cbn.
    by rewrite <- !app_assoc.
Qed.

(** With the context live, the accept loop starts one handler goroutine
    for every socket it accepts, in the order of the accepts, logs each at
    debug level, and changes nothing else before it goes on. *)
Theorem listenForNewConn_one_handler_per_accept (w : world) (j : nat)
    (fr : frontend) (ncs : list NetConn) (rest : list accept_try) :
  frontends w !! j = Some fr → f_ctx fr ∉ done w →
  frontend_listenForNewConn j (accepted ncs ++ rest) w
  = frontend_listenForNewConn j rest
      (set_trace (λ t, t ++ acceptedTrace j ncs) w).
Proof.
  intros Hj Hd. unfold frontend_listenForNewConn. wsimpl. rewrite Hj.
  by rewrite acceptLoop_accepted.
Qed.

Lemma listenForNewConn_one_handler_per_accept_witness :
  frontend_listenForNewConn 0 (accepted [clientConn; upstreamConn]) C7_world
  = (Running,
     set_trace (λ _, [EvAccept 0; EvLog Debug "accepted new connection";
                      EvGo (GoHandleNewConnection 0 clientConn);
                      EvAccept 0; EvLog Debug "accepted new connection";
                      EvGo (GoHandleNewConnection 0 upstreamConn)]) C7_world).
Proof.
  assert (Hd : 0%nat ∉ done C7_world) by apply not_elem_of_empty.
  pose proof (listenForNewConn_one_handler_per_accept C7_world 0 _
                [clientConn; upstreamConn] [] eq_refl Hd) as H.
  rewrite app_nil_r in H. rewrite H. reflexivity.
Defined.

Lemma handleNewConnection_failure (w : world) (j : nat)
    (nc : NetConn) (r : dial_result) (e : remote_error) :
  eval (application_createRemoteConnection r) w = inl e →
  frontend_handleNewConnection j nc r w
  = (None,
     set_trace (λ t, t ++ [EvLog ErrorLevel "can't find next backend";
                           EvLog Debug (closingMsg (remoteAddr nc) (localAddr nc));
                           EvNetClose (sock nc)])
       (exec (application_createRemoteConnection r) w)).
Proof.
  intros He. unfold eval, exec in *.
  unfold frontend_handleNewConnection, bind at 1.
  destruct (application_createRemoteConnection r w) as [res wr].
  cbn in He. subst res. wsimpl. by rewrite <- !app_assoc.
Qed.

(** When the dial of the chosen backend fails, the handler returns
    early: one dial was made, the chosen backend is marked inactive (the
    change is logged), the accepted socket is closed, once, no handle is
    made, no map and no latch is touched, no goroutine is started; and
    the selection does not choose that backend from the world this
    leaves. *)
Theorem handleNewConnection_dial_failure (w : world) (j i : nat)
    (b : backend) (nc : NetConn) (err : error) :
  selectBackend (backends w) = Some i → backends w !! i = Some b →
  frontend_handleNewConnection j nc (inl err) w
  = (None,
     mkWorld (done w) (heap w) (onces w)
       (<[i := set_active false b]> (backends w)) (frontends w)
       (trace w ++ [EvDial (addr b); EvLog Info "changed active status";
                    EvLog ErrorLevel "can't find next backend";
                    EvLog Debug (closingMsg (remoteAddr nc) (localAddr nc));
                    EvNetClose (sock nc)]))
  ∧ selectBackend
      (backends (exec (frontend_handleNewConnection j nc (inl err)) w))
    ≠ Some i.
Proof.
  intros Hsel Hi.
  destruct (selectBackend_Some _ _ Hsel) as (b' & Hi' & Hact & _).
  assert (b' = b) as -> by congruence.
  assert (Hcr : application_createRemoteConnection (inl err) w
                = (inl (DialError (Wrap err "Dial()")),
                   mkWorld (done w) (heap w) (onces w)
                     (<[i := set_active false b]> (backends w)) (frontends w)
                     (trace w ++ [EvDial (addr b);
                                  EvLog Info "changed active status"]))).
  { unfold application_createRemoteConnection. rewrite Hsel.
    unfold backend_createConn, DialContext. wsimpl. rewrite Hi.
    cbn [from_option].
    set (w0 := mkWorld _ _ _ _ _ _).
    assert (Hi0 : backends w0 !! i = Some b) by done.
    pose proof (setActive_effect w0 i b false Hi0) as H.
    unfold exec in H. destruct (backend_setActive i false w0) as [[] w1].
    cbn in H. subst w1 w0. rewrite Hact.
    rewrite bool_decide_false by done.
    unfold set_trace, set_backends. cbn. by rewrite <- app_assoc. }
  assert (Hh : frontend_handleNewConnection j nc (inl err) w
               = (None,
     mkWorld (done w) (heap w) (onces w)
       (<[i := set_active false b]> (backends w)) (frontends w)
       (trace w ++ [EvDial (addr b); EvLog Info "changed active status";
                    EvLog ErrorLevel "can't find next backend";
                    EvLog Debug (closingMsg (remoteAddr nc) (localAddr nc));
                    EvNetClose (sock nc)]))).
  { rewrite (handleNewConnection_failure w j nc (inl err)
               (DialError (Wrap err "Dial()"))) by (unfold eval; by rewrite Hcr).
    unfold exec. rewrite Hcr. unfold set_trace. cbn. by rewrite <- app_assoc. }
  split; [exact Hh|]. unfold exec. rewrite Hh. cbn [snd backends].
  intros Hsel'. destruct (selectBackend_Some _ _ Hsel') as (b2 & Hi2 & Ha2 & _).
  rewrite list_lookup_insert_eq in Hi2 by (by eapply lookup_lt_Some).
  injection Hi2 as <-. discriminate Ha2.
Qed.

Lemma handleNewConnection_dial_failure_witness :
  (frontend_handleNewConnection 0 clientConn (inl C7_err) C5_world).1 = None
  ∧ trace (exec (frontend_handleNewConnection 0 clientConn (inl C7_err)) C5_world)
    = [EvDial "10.0.0.2:9000"; EvLog Info "changed active status";
       EvLog ErrorLevel "can't find next backend";
       EvLog Debug (closingMsg "10.0.0.9:5555" "10.0.0.1:7000");
       EvNetClose 31]
  ∧ selectBackend
      (backends (exec (frontend_handleNewConnection 0 clientConn (inl C7_err))
                   C5_world)) = None.
Proof.
  destruct (handleNewConnection_dial_failure C5_world 0 0 _ clientConn C7_err
              eq_refl eq_refl) as [H _].
  unfold exec. rewrite H. repeat split; reflexivity.
Defined.

(** The copy loop passes over copies that moved bytes without error.  On
    the first other answer it leaves: with a log line if the answer
    carries an error, whatever its byte count, and silently on zero bytes
    without error; the answers after that one are not looked at.  Until
    then the relay goroutine has done nothing to the world: [closeAll] is
    not reached while the loop runs. *)
Theorem relay_leaves_on_error_or_zero (s : session)
    (pre post : list (Z * option error)) (n : Z) (oe : option error)
    (w : world) :
  Forall copied pre →
  relay s pre w = (Running, w)
  ∧ (is_Some oe ∨ n = 0 →
     copyLoop (pre ++ (n, oe) :: post) w
     = (Returned,
        match oe with
        | Some _ => set_trace (λ t, t ++ [EvLog Info "can't copy data"]) w
        | None => w
        end)).
Proof.
  intros Hpre.
  assert (Hgo : ∀ l, copyEnds (pre ++ l) = copyEnds l
                     ∧ copyLog (pre ++ l) = copyLog l).
  { intros l. induction Hpre as [|[k oe'] pre [Hk1 Hk2] _ IH]; [done|].
    cbn in Hk1, Hk2. subst oe'. cbn [app copyEnds copyLog].
    by rewrite (proj2 (Z.eqb_neq k 0) Hk2). }
  split.
  - unfold relay, bind. rewrite copyLoop_spec.
    destruct (Hgo []) as [He Hl]. rewrite app_nil_r in He, Hl.
    rewrite He, Hl. cbn. by rewrite set_trace_nil.
  - intros Hx. rewrite copyLoop_spec.
    destruct (Hgo ((n, oe) :: post)) as [-> ->]. cbn.
    destruct oe as [e|]; [done|]. destruct Hx as [[? [=]]| ->]. cbn.
    by rewrite set_trace_nil.
Qed.

Lemma relay_leaves_on_error_or_zero_witness :
  copyLoop X_copies C5_world
  = (Returned, set_trace (λ _, [EvLog Info "can't copy data"]) C5_world)
  ∧ relay (mkSession 0 1 0) [(512, None)] C5_world = (Running, C5_world).
Proof.
  assert (Hpre : Forall copied [(512, @None error)]).
  { constructor; [|constructor]. split; [reflexivity|discriminate]. }
  destruct (relay_leaves_on_error_or_zero (mkSession 0 1 0) [(512, None)]
              [(0, None)] 7 (Some (NetError "write: broken pipe")) C5_world Hpre)
    as [H1 H2].
  split; [|exact H1]. apply H2. left. by eexists.
Defined.

(** ** What no operation undoes *)

Global Instance sameHandle_preorder : PreOrder sameHandle.
Proof.
  split.
  - intros c. by repeat split.
  - intros c1 c2 c3 (H1 & H2 & H3 & H4) (G1 & G2 & G3 & G4).
    repeat split; [congruence..|auto].
Qed.

Global Instance later_preorder : PreOrder later.
Proof.
  split.
  - intros w. split; [done|]. split; [intros p c Hp; by exists c|].
    split; [done|]. split; [exists []; by rewrite app_nil_r|].
    split; [intros i b Hi; by exists b|intros j fr Hj; by exists fr].
  - intros w1 w2 w3 (Hd & Hh & Ho & [t Ht] & Hb & Hf)
                    (Hd' & Hh' & Ho' & [t' Ht'] & Hb' & Hf').
    split; [by etrans|]. split.
    { intros p c Hp. destruct (Hh p c Hp) as (c2 & Hp2 & Hs).
      destruct (Hh' p c2 Hp2) as (c3 & Hp3 & Hs').
      exists c3. split; [done|]. by etrans. }
    split; [auto|]. split; [exists (t ++ t'); by rewrite Ht', Ht, app_assoc|].
    split.
    { intros i b Hi. destruct (Hb i b Hi) as (b2 & Hi2 & ? & ?).
      destruct (Hb' i b2 Hi2) as (b3 & Hi3 & ? & ?).
      exists b3. repeat split; [done|congruence..]. }
    intros j fr Hj. destruct (Hf j fr Hj) as (f2 & Hj2 & ? & ?).
    destruct (Hf' j f2 Hj2) as (f3 & Hj3 & ? & ?).
    exists f3. repeat split; [done|congruence..].
Qed.

Section later.

Lemma later_intro w w' :
  done w ⊆ done w' →
  (∀ p c, heap w !! p = Some c →
          ∃ c', heap w' !! p = Some c' ∧ sameHandle c c') →
  (∀ o, onces w !! o = Some true → onces w' !! o = Some true) →
  (∃ t, trace w' = trace w ++ t) →
  (∀ i b, backends w !! i = Some b →
          ∃ b', backends w' !! i = Some b'
                ∧ b_ctx b' = b_ctx b ∧ addr b' = addr b) →
  (∀ j fr, frontends w !! j = Some fr →
           ∃ fr', frontends w' !! j = Some fr'
                  ∧ f_ctx fr' = f_ctx fr ∧ laddr fr' = laddr fr) →
  later w w'.
Proof. intros. by repeat split. Qed.

Ltac later_same :=
  first [ done
        | by (intros ? ? ?; eexists; split; [eassumption|done])
        | by (exists []; rewrite app_nil_r) ].

Lemma later_read {A} (m : M A) : (∀ w, (m w).2 = w) → keeps later m.
Proof. intros H w. rewrite H. reflexivity. Qed.

Lemma later_emit e : keeps later (emit e).
Proof.
  intros w. apply later_intro; cbn; try later_same. by eexists.
Qed.
Lemma later_log l s : keeps later (log l s).
Proof. apply later_emit. Qed.
Lemma later_cancel c : keeps later (cancel c).
Proof.
  intros w. apply later_intro; cbn; try later_same. apply union_subseteq_r.
Qed.
Lemma later_isDone c : keeps later (isDone c).
Proof. by apply later_read. Qed.
Lemma later_load p : keeps later (load p).
Proof. by apply later_read. Qed.
Lemma later_getBackend k : keeps later (getBackend k).
Proof. by apply later_read. Qed.
Lemma later_getFrontend j : keeps later (getFrontend j).
Proof. by apply later_read. Qed.

Lemma later_newConn nc m : keeps later (newConn nc m).
Proof.
  intros w. apply later_intro; cbn; try later_same.
  intros p c Hp. exists c. split; [by apply lookup_app_l_Some|done].
Qed.

Lemma later_newOnce : keeps later newOnce.
Proof.
  intros w. apply later_intro; cbn; try later_same.
  intros o Ho. by apply lookup_app_l_Some.
Qed.

Lemma later_set_once o : keeps later (λ w, (tt, set_onces (insert o true) w)).
Proof.
  intros w. apply later_intro; cbn; try later_same.
  intros o' Ho. destruct (decide (o = o')) as [->|Hne].
  - apply list_lookup_insert_eq. by eapply lookup_lt_Some.
  - by rewrite list_lookup_insert_ne.
Qed.

Lemma later_modifyBackend k f :
  (∀ b, b_ctx (f b) = b_ctx b ∧ addr (f b) = addr b) →
  keeps later (modifyBackend k f).
Proof.
  intros Hf w. apply later_intro; cbn; try later_same.
  intros i b Hi. destruct (backends w !! k) as [bk|] eqn:Hk; [|by exists b].
  destruct (decide (k = i)) as [->|Hne].
  - exists (f bk). rewrite list_lookup_insert_eq by (by eapply lookup_lt_Some).
    split; [done|]. assert (bk = b) as -> by congruence. apply Hf.
  - exists b. by rewrite list_lookup_insert_ne.
Qed.

Lemma later_modifyFrontend k f :
  (∀ fr, f_ctx (f fr) = f_ctx fr ∧ laddr (f fr) = laddr fr) →
  keeps later (modifyFrontend k f).
Proof.
  intros Hf w. apply later_intro; cbn; try later_same.
  intros j fr Hj. destruct (frontends w !! k) as [fk|] eqn:Hk; [|by exists fr].
  destruct (decide (k = j)) as [->|Hne].
  - exists (f fk). rewrite list_lookup_insert_eq by (by eapply lookup_lt_Some).
    split; [done|]. assert (fk = fr) as -> by congruence. apply Hf.
  - exists fr. by rewrite list_lookup_insert_ne.
Qed.

Lemma later_Conn_Close p : keeps later (Conn_Close p).
Proof.
  intros w. destruct (heap w !! p) as [c|] eqn:Hp.
  - rewrite (Conn_Close_spec w p c Hp). apply later_intro; cbn; try later_same.
    + intros q cq Hq. destruct (decide (p = q)) as [->|Hne].
      * exists (set_closed true c).
        rewrite list_lookup_insert_eq by (by eapply lookup_lt_Some).
        split; [done|]. assert (cq = c) as -> by congruence. by repeat split.
      * exists cq. by rewrite list_lookup_insert_ne.
    + by eexists.
  - rewrite (Conn_Close_dangling w p Hp). reflexivity.
Qed.

Hint Resolve later_emit later_log later_cancel later_isDone later_load
  later_getBackend later_getFrontend later_newConn later_newOnce
  later_set_once later_Conn_Close : keeps.

Lemma later_net_Close nc : keeps later (net_Close nc).
Proof. unfold net_Close. keeps_go. Qed.
Hint Resolve later_net_Close : keeps.

Lemma later_set_b_connections k g :
  keeps later (modifyBackend k (set_b_connections g)).
Proof. by apply later_modifyBackend. Qed.
Lemma later_set_active k t : keeps later (modifyBackend k (set_active t)).
Proof. by apply later_modifyBackend. Qed.
Lemma later_set_f_connections k g :
  keeps later (modifyFrontend k (set_f_connections g)).
Proof. by apply later_modifyFrontend. Qed.
Lemma later_set_tcpListener k l :
  keeps later (modifyFrontend k (set_tcpListener l)).
Proof. by apply later_modifyFrontend. Qed.
Hint Resolve later_set_b_connections later_set_active
  later_set_f_connections later_set_tcpListener : keeps.

Lemma later_backend_addConn k p : keeps later (backend_addConn k p).
Proof. unfold backend_addConn. keeps_go. Qed.
Lemma later_backend_delConn k p : keeps later (backend_delConn k p).
Proof. unfold backend_delConn. keeps_go. Qed.
Lemma later_frontend_addConn j p : keeps later (frontend_addConn j p).
Proof. unfold frontend_addConn. keeps_go. Qed.
Lemma later_frontend_delConn j p : keeps later (frontend_delConn j p).
Proof. unfold frontend_delConn. keeps_go. Qed.
Hint Resolve later_backend_addConn later_backend_delConn
  later_frontend_addConn later_frontend_delConn : keeps.

Lemma later_manager_addConn p : keeps later (manager_addConn p).
Proof. unfold manager_addConn. keeps_go. Qed.
Lemma later_manager_delConn p : keeps later (manager_delConn p).
Proof. unfold manager_delConn. keeps_go. Qed.
Lemma later_getConnCount k : keeps later (backend_getConnCount k).
Proof. unfold backend_getConnCount. keeps_go. Qed.
Lemma later_setActive k t : keeps later (backend_setActive k t).
Proof. unfold backend_setActive. keeps_go. Qed.
Lemma later_DialContext k r : keeps later (DialContext k r).
Proof. unfold DialContext. keeps_go. Qed.
Hint Resolve later_manager_addConn later_manager_delConn later_getConnCount
  later_setActive later_DialContext : keeps.

Lemma later_createConn k r : keeps later (backend_createConn k r).
Proof. unfold backend_createConn. keeps_go. Qed.
Lemma later_probe k r : keeps later (probe k r).
Proof. unfold probe. keeps_go. Qed.
Hint Resolve later_createConn later_probe : keeps.

Lemma later_healthcheckLoop k ctx ticks :
  keeps later (healthcheckLoop k ctx ticks).
Proof.
  induction ticks as [|[|r] ticks IH]; cbn [healthcheckLoop]; keeps_go.
Qed.
Hint Resolve later_healthcheckLoop : keeps.

Lemma later_runHealthcheck k first ticks :
  keeps later (backend_runHealthcheck k first ticks).
Proof. unfold backend_runHealthcheck. keeps_go. Qed.

Lemma later_closeEach ps : keeps later (closeEach ps).
Proof. apply keeps_closeEach; [apply _|apply later_Conn_Close]. Qed.
Hint Resolve later_closeEach : keeps.

Lemma later_backend_run k shutdown : keeps later (backend_run k shutdown).
Proof. unfold backend_run. keeps_go. Qed.

Lemma later_createRemoteConnection r :
  keeps later (application_createRemoteConnection r).
Proof.
  intros w. unfold application_createRemoteConnection.
  destruct (selectBackend (backends w)) as [k|]; [|reflexivity].
  revert w. change (keeps later
    (do res <- backend_createConn k r;
     match res with
     | inl e => ret (inl (DialError e))
     | inr nc => do p <- newConn nc (ManagerBackend k); ret (inr p)
     end)).
  keeps_go.
Qed.
Hint Resolve later_createRemoteConnection : keeps.

Lemma later_bindLoop j ctx a tries : keeps later (bindLoop j ctx a tries).
Proof. induction tries as [|t tries IH]; cbn [bindLoop]; keeps_go. Qed.
Hint Resolve later_bindLoop : keeps.

Lemma later_frontend_run j tries shutdown :
  keeps later (frontend_run j tries shutdown).
Proof. unfold frontend_run. keeps_go. Qed.

Lemma later_acceptLoop j ctx accepts : keeps later (acceptLoop j ctx accepts).
Proof. induction accepts as [|t accepts IH]; cbn [acceptLoop]; keeps_go. Qed.
Hint Resolve later_acceptLoop : keeps.

Lemma later_listenForNewConn j accepts :
  keeps later (frontend_listenForNewConn j accepts).
Proof. unfold frontend_listenForNewConn. keeps_go. Qed.

Lemma later_Once_Do o f : keeps later f → keeps later (Once_Do o f).
Proof.
  intros Hf w. unfold Once_Do.
  destruct (onces w !! o) as [[]|]; try reflexivity.
  revert w. change (keeps later
    (f >> λ w', (tt, set_onces (λ os, <[o := true]> os) w'))).
  keeps_go.
Qed.

Lemma later_closeAll s : keeps later (closeAll s).
Proof. unfold closeAll, addrs. keeps_go. Qed.

Lemma later_handleNewConnection j nc r :
  keeps later (frontend_handleNewConnection j nc r).
Proof. unfold frontend_handleNewConnection. keeps_go. Qed.

Lemma later_copyLoop copies : keeps later (copyLoop copies).
Proof.
  induction copies as [|[n [e|]] copies IH]; cbn [copyLoop]; keeps_go.
Qed.
Hint Resolve later_copyLoop : keeps.

Lemma later_relay s copies : keeps later (relay s copies).
Proof.
  pose proof (later_Once_Do (s_closeOnce s) _ (later_closeAll s)).
  unfold relay. keeps_go.
Qed.

Lemma step_later a w : later w (step a w).
Proof.
  destruct a; cbn [step]; unfold exec.
  - apply later_cancel.
  - apply later_Conn_Close.
  - apply later_newConn.
  - apply later_backend_addConn.
  - apply later_backend_delConn.
  - apply later_frontend_addConn.
  - apply later_frontend_delConn.
  - apply later_getConnCount.
  - apply later_createConn.
  - apply later_probe.
  - apply later_runHealthcheck.
  - apply later_backend_run.
  - apply later_createRemoteConnection.
  - apply later_frontend_run.
  - apply later_listenForNewConn.
  - apply later_handleNewConnection.
  - apply later_relay.
Qed.

End later.

(** Through any sequence of operations of the package: a context that
    is cancelled stays cancelled; a handle stays at its place with its
    socket, descriptor and manager, and once closed it stays closed; a
    latch that is set stays set; the trace is only extended; every
    backend and frontend stays in place with its context and address. *)
Theorem nothing_is_undone (acts : list action) (w : world) :
  later w (run acts w).
Proof.
  revert w. induction acts as [|a acts IH]; intros w; cbn.
  - reflexivity.
  - etrans; [apply step_later|apply IH].
Qed.

(** ** Registration by the handler *)

Lemma netCloses_not_close s t :
  (∀ e, e ∈ t → ∀ s', e ≠ EvNetClose s') → netCloses s t = 0%nat.
Proof.
  induction t as [|e t IH]; intros H; [done|].
  rewrite netCloses_cons, IH.
  - rewrite decide_False; [done|]. apply H. by left.
  - intros e' He'. apply H. by right.
Qed.

(** With the contexts of the frontend and of the chosen backend live,
    the handler that gets its upstream socket leaves two open handles:
    the client's, managed by the frontend and in the frontend's map under
    its descriptor, and the upstream's, managed by the chosen backend and
    in that backend's map under its descriptor; the latch is not set; no
    socket has been closed; and [getConnCount] of the chosen backend is
    one more than before when the upstream descriptor was not a key. *)
Theorem handleNewConnection_registers_pair (w : world) (j i : nat)
    (fr : frontend) (b : backend) (nc rnc : NetConn) :
  frontends w !! j = Some fr →
  selectBackend (backends w) = Some i → backends w !! i = Some b →
  f_ctx fr ∉ done w → b_ctx b ∉ done w →
  let conn := S (length (heap w)) in
  let rConn := length (heap w) in
  let w' := exec (frontend_handleNewConnection j nc (inr rnc)) w in
  eval (frontend_handleNewConnection j nc (inr rnc)) w
  = Some (mkSession conn rConn (length (onces w)))
  ∧ heap w' !! conn = Some (mkConn nc (Sysfd nc) false (ManagerFrontend j))
  ∧ heap w' !! rConn = Some (mkConn rnc (Sysfd rnc) false (ManagerBackend i))
  ∧ frontendEntry w' j (Sysfd nc) = Some conn
  ∧ backendEntry w' i (Sysfd rnc) = Some rConn
  ∧ onces w' !! length (onces w) = Some false
  ∧ (∀ s, netCloses s (trace w') = netCloses s (trace w))
  ∧ eval (backend_getConnCount i) w'
    = match b_connections b !! Sysfd rnc with
      | Some _ => eval (backend_getConnCount i) w
      | None => S (eval (backend_getConnCount i) w)
      end.
Proof.
  intros Hj Hsel Hi Hf Hb conn rConn w'. subst w' conn rConn.
  unfold eval, exec, frontendEntry, backendEntry.
  rewrite (handleNewConnection_ok w j fr i b nc rnc Hj Hsel Hi).
  rewrite (isDone_false _ _ Hf), (isDone_false _ _ Hb).
  cbn [fst snd done heap onces backends frontends trace].
  split; [done|]. split; [apply lookup_snoc2_1|]. split; [apply lookup_snoc2_0|].
  split.
  { rewrite list_lookup_insert_eq by (by eapply lookup_lt_Some).
    cbn. apply lookup_insert_eq. }
  split.
  { rewrite list_lookup_insert_eq by (by eapply lookup_lt_Some).
    cbn. apply lookup_insert_eq. }
  split; [by apply list_lookup_middle|]. split.
  - intros s. rewrite netCloses_app. cbn [app].
    rewrite (netCloses_not_close s [_; _; _; _]); [lia|].
    intros e He s'. repeat (apply elem_of_cons in He as [->|He]; [done|]).
    by apply not_elem_of_nil in He.
  - unfold backend_getConnCount. wsimpl. rewrite Hi.
    rewrite list_lookup_insert_eq by (by eapply lookup_lt_Some).
    cbn. unfold connCount. cbn. rewrite map_size_insert.
    by destruct (b_connections b !! Sysfd rnc).
Qed.

Lemma handleNewConnection_registers_pair_witness :
  frontendEntry (exec (frontend_handleNewConnection 0 C2_client (inr C2_upstream))
                   C2_world) 0 8 = Some 1%nat
  ∧ backendEntry (exec (frontend_handleNewConnection 0 C2_client (inr C2_upstream))
                    C2_world) 0 9 = Some 0%nat
  ∧ eval (backend_getConnCount 0)
      (exec (frontend_handleNewConnection 0 C2_client (inr C2_upstream)) C2_world)
    = 1%nat.
Proof.
  assert (Hd : 0%nat ∉ done C2_world) by apply not_elem_of_empty.
  destruct (handleNewConnection_registers_pair C2_world 0 0 _ _ C2_client
              C2_upstream eq_refl eq_refl eq_refl Hd Hd)
    as (_ & _ & _ & H1 & H2 & _ & _ & H3).
  split; [exact H1|]. split; [exact H2|]. rewrite H3. reflexivity.
Defined.

(** ** Teardown after shutdown, and the frontend's map *)

Lemma set_closed_closed c : closed c = true → set_closed true c = c.
Proof. intros H. destruct c; cbn in *; by subst. Qed.

(** When shutdown has already closed both handles of a pair and the
    contexts of their managers are cancelled, [closeAll] writes its two
    log lines and nothing more: no socket is closed a second time and
    the handles stay in the maps. *)
Theorem closeAll_after_shutdown (w : world) (q p o : nat) (cF cR : Conn)
    (j i : nat) (fJ : frontend) (bI : backend) :
  heap w !! q = Some cF → heap w !! p = Some cR → p ≠ q →
  manager cF = ManagerFrontend j → manager cR = ManagerBackend i →
  frontends w !! j = Some fJ → backends w !! i = Some bI →
  closed cF = true → closed cR = true →
  f_ctx fJ ∈ done w → b_ctx bI ∈ done w →
  closeAll (mkSession q p o) w
  = (tt,
     set_trace
       (λ t, t ++ [EvLog Debug (closingMsg (remoteAddr (netConn cF))
                                           (localAddr (netConn cF)));
                   EvLog Debug (closingMsg (localAddr (netConn cR))
                                           (remoteAddr (netConn cR)))]) w).
Proof.
  intros Hq Hp Hne HmF HmR Hj Hi HcF HcR HdF HdB.
  rewrite (closeAll_spec w q p o cF cR j i fJ bI) by done.
  rewrite HcF, HcR, !bool_decide_true by done.
  rewrite !set_closed_closed by done.
  rewrite (list_insert_id (heap w) q cF) by done.
  rewrite list_insert_id by done. done.
Qed.

Lemma closeAll_after_shutdown_witness :
  closeAll (mkSession 1 0 0) C10_world
  = (tt,
     set_trace (λ _, [EvLog Debug (closingMsg "10.0.0.9:5555" "10.0.0.1:7000");
                      EvLog Debug (closingMsg "10.0.0.1:40000" "10.0.0.2:9000")])
       C10_world).
Proof.
  assert (Hd : 0%nat ∈ done C10_world)
    by (apply (bool_decide_unpack _); vm_compute; exact I).
  etrans.
  - eapply (closeAll_after_shutdown C10_world 1 0 0 _ _ 0 0);
      [reflexivity|reflexivity|lia|reflexivity|reflexivity|reflexivity
      |reflexivity|reflexivity|reflexivity|exact Hd|exact Hd].
  - reflexivity.
Defined.

(** The frontend's map behaves as the backend's: with the context live,
    [addConn] puts the handle under its descriptor without closing it,
    and [delConn] after it brings back the world as it was when the
    descriptor was not a key before. *)
Theorem frontend_addConn_delConn_round_trip (w : world) (j p : nat)
    (fr : frontend) (c : Conn) :
  frontends w !! j = Some fr → heap w !! p = Some c → f_ctx fr ∉ done w →
  let w1 := exec (frontend_addConn j p) w in
  frontendEntry w1 j (fd c) = Some p
  ∧ heap w1 = heap w ∧ trace w1 = trace w
  ∧ (f_connections fr !! fd c = None → exec (frontend_delConn j p) w1 = w).
Proof.
  intros Hj Hp Hd w1. subst w1. unfold exec at 1 2 3 5, frontendEntry.
  rewrite (frontend_addConn_spec w j p fr c Hj Hp), (isDone_false _ _ Hd).
  cbn [snd andb done heap onces backends frontends trace]. rewrite app_nil_r.
  split.
  { rewrite list_lookup_insert_eq by (by eapply lookup_lt_Some).
    cbn. apply lookup_insert_eq. }
  split; [done|]. split; [done|]. intros Hk.
  set (w1 := mkWorld _ _ _ _ _ _).
  assert (Hj1 : frontends w1 !! j
                = Some (set_f_connections (insert (fd c) p) fr)).
  { subst w1. cbn. apply list_lookup_insert_eq. by eapply lookup_lt_Some. }
  unfold exec. rewrite (frontend_delConn_spec w1 j p _ c Hj1 Hp).
  cbn [f_ctx set_f_connections]. subst w1. cbn [done snd].
  rewrite (isDone_false _ _ Hd). unfold set_frontends.
  cbn [done heap onces backends frontends trace].
  rewrite list_insert_insert_eq.
  replace (set_f_connections (delete (fd c)) (set_f_connections <[fd c:=p]> fr))
    with fr.
  - rewrite list_insert_id by done. by destruct w.
  - unfold set_f_connections. cbn. rewrite delete_insert_id by done.
    by destruct fr.
Qed.

Lemma frontend_addConn_delConn_round_trip_witness :
  frontendEntry (exec (frontend_addConn 0 0) X_unregistered) 0 22 = Some 0%nat
  ∧ exec (frontend_delConn 0 0) (exec (frontend_addConn 0 0) X_unregistered)
    = X_unregistered.
Proof.
  assert (Hd : 0%nat ∉ done X_unregistered) by apply not_elem_of_empty.
  destruct (frontend_addConn_delConn_round_trip X_unregistered 0 0 _ _
              eq_refl eq_refl Hd) as (H1 & _ & _ & H2).
  split; [exact H1|]. apply H2. reflexivity.
Defined.
